(** * Diff Sounds: the event, debounce and audio state machine

    A shallow embedding of the orchestration logic of the Diff Sounds
    editor extension: [extension.ts] (module variables, the document-change
    and tab-change listeners, the enable and disable commands, the settings
    reader), [AttributionService.ts] (the attribution gate), [types.ts]
    (the configuration records) and the playback side of
    [DiffSoundPlayer.ts] (the five play methods, [stopAudio], the completion
    callbacks).  After the state machine come [SoundDetector.ts] (the scan
    of the two sound folders, [guessSoundType], [findBestMatch], the
    resolution of the paths), the reload of the sounds ([preloadSounds],
    [getConfig], the reload command) and the test buttons of the settings
    panel.  The configuration-change listener is not embedded: the two
    variables it sets are part of the state, and the statements quantify
    over them.

    Conventions of the embedding:
    - JavaScript numbers that hold settings, lengths and times are [Z];
      the linear playback volume, a quotient of such numbers, is an exact
      rational [Q];
    - the host (editor) is explicit state: the settings store, the open tab
      groups, a clock and a table of pending timers.  [setTimeout] is the
      host's timer with a clock of whole milliseconds: a callback set at
      time [t] with a delay [d] between 1 and [2^31 - 1] runs at [t + d],
      with any other delay at [t + 1];
    - closures handed to [setTimeout] and [onSoundCompleted] are data: a
      constructor that records the captured variables, and an interpreter
      that runs the closure's body on the state at the time it fires;
    - messages posted to the hidden audio webview are the observable
      output: they are appended, with the clock's value, to [audioLog];
    - [console.log] lines and messages to the settings panel are dropped;
    - the file system is what it answers to the calls of one scan, each
      call that can throw answering with a completion; [path.join] and the
      installation path are parameters; file names are strings of ASCII
      characters without separators, on which [path.extname] and
      [path.basename] are written out. *)

From Stdlib Require Import ZArith QArith List String Ascii Bool Lia Sorted.
Import ListNotations.
Open Scope string_scope.
Open Scope list_scope.
Open Scope Z_scope.

(** ** types.ts *)

(** The five sound ids used as message keys ('add', 'remove', 'diffopen',
    'diffactive', 'diffclose'). *)
Module Sound.

Inductive id : Type := add | remove | diffopen | diffactive | diffclose.

Definition eqb (a b : id) : bool :=
  match a, b with
  | add, add | remove, remove | diffopen, diffopen
  | diffactive, diffactive | diffclose, diffclose => true
  | _, _ => false
  end.

End Sound.

Definition Uri : Type := string.

(** [SoundEntry]: [volume] is optional; [filename] and [isDefault] are only
    used by the sound detector. *)
Record SoundEntry : Type := mkSoundEntry {
  se_enabled : bool;
  se_volume : option Z
}.

(** [DiffSoundsConfig].  [attributionMode] is kept as the string read from
    the settings, since the gate switches on it with a default branch. *)
Record DiffSoundsConfig : Type := mkConfig {
  enabled : bool;
  attributionMode : string;
  authorName : string;
  addSound : SoundEntry;
  removeSound : SoundEntry;
  diffOpenSound : SoundEntry;
  diffActiveSound : SoundEntry;
  diffCloseSound : SoundEntry;
  volume : Z;
  debounceMs : Z
}.

(** ** The settings store read by [getVSCodeConfig] *)

Inductive SettingValue : Type :=
| VBool (b : bool)
| VNumber (n : Z)
| VString (s : string).

(** The section 'diffSounds' of the settings: key/value pairs, first match
    wins. *)
Definition Settings : Type := list (string * SettingValue).

Fixpoint lookup (key : string) (c : Settings) : option SettingValue :=
  match c with
  | [] => None
  | (k, v) :: rest => if String.eqb k key then Some v else lookup key rest
  end.

(** [c.get<boolean>(key, dflt)]: the stored value, [dflt] when the key is
    absent.  Every key is typed by the extension's settings schema, so a
    stored value of another type is treated as absent. *)
Definition get_boolean (c : Settings) (key : string) (dflt : bool) : bool :=
  match lookup key c with Some (VBool b) => b | _ => dflt end.

Definition get_number (c : Settings) (key : string) (dflt : Z) : Z :=
  match lookup key c with Some (VNumber n) => n | _ => dflt end.

Definition get_string (c : Settings) (key : string) (dflt : string) : string :=
  match lookup key c with Some (VString s) => s | _ => dflt end.

(** [getVSCodeConfig] (extension.ts), key by key as written there. *)
Definition getVSCodeConfig (c : Settings) : DiffSoundsConfig :=
  {| enabled := get_boolean c "enabled" true;
     attributionMode := get_string c "attributionMode" "any";
     authorName := get_string c "authorName" "Cline";
     addSound :=
       {| se_enabled := get_boolean c "addSound.enabled" true;
          se_volume := Some (get_number c "addSound.volume" 50) |};
     removeSound :=
       {| se_enabled := get_boolean c "addSound.enabled" true;
          se_volume := Some (get_number c "removeSound.volume" 50) |};
     diffOpenSound :=
       {| se_enabled := get_boolean c "diffOpenSound.enabled" true;
          se_volume := Some (get_number c "diffOpenSound.volume" 100) |};
     diffActiveSound :=
       {| se_enabled := get_boolean c "diffActiveSound.enabled" true;
          se_volume := Some (get_number c "diffActiveSound.volume" 100) |};
     diffCloseSound :=
       {| se_enabled := get_boolean c "diffCloseSound.enabled" true;
          se_volume := Some (get_number c "diffCloseSound.volume" 100) |};
     volume := get_number c "volume" 100;
     debounceMs := get_number c "debounceMs" 1 |}.

(** ** AttributionService.ts *)

(** The result of running a piece of code that may throw. *)
Inductive Completion (A : Type) : Type :=
| Normal (a : A)
| Throw.
Arguments Normal {A} a.
Arguments Throw {A}.

Definition bind {A B : Type} (m : Completion A) (k : A -> Completion B)
  : Completion B :=
  match m with Normal a => k a | Throw => Throw end.

Notation "x <- m ;; k" := (bind m (fun x => k))
  (at level 61, m at next level, right associativity).

(** [try { body } catch (error) { console.warn(...); return handler; }] *)
Definition try_catch {A : Type} (body : Completion A) (handler : A)
  : Completion A :=
  match body with Normal a => Normal a | Throw => Normal handler end.

(** What the Live Share API exposes to [checkLiveAttribution].  The API is
    untyped in the source ([any]); reading [session.participants.values()]
    is the step the surrounding [try] protects. *)
Record UserInfo : Type := mkUserInfo {
  displayName : option string;
  userName : option string
}.

Record Participant : Type := mkParticipant { userInfo : option UserInfo }.

Record Session : Type := mkSession {
  participants : Completion (list Participant)
}.

Record LiveShareApi : Type := mkLiveShareApi { session : option Session }.

Record AttributionService : Type := mkAttributionService {
  liveShareApi : option LiveShareApi
}.

(** What the git extension exposes to [checkGitAttribution]. *)
Record Repository : Type := mkRepository { rootUriPath : string }.

Record GitApi : Type := mkGitApi { repositories : list Repository }.

Record GitExtension : Type := mkGitExtension {
  isActive : bool;
  getAPI : Completion GitApi
}.

(** [x === authorName] for a possibly undefined [x]. *)
Definition strict_eq (x : option string) (s : string) : bool :=
  match x with Some y => String.eqb y s | None => false end.

Definition participantMatches (authorName : string) (p : Participant) : bool :=
  match userInfo p with
  | Some u => strict_eq (displayName u) authorName
              || strict_eq (userName u) authorName
  | None => false
  end.

Definition checkLiveAttribution (svc : AttributionService) (authorName : string)
  : Completion bool :=
  match liveShareApi svc with
  | None => Normal false
  | Some api =>
      try_catch
        (match session api with
         | None => Normal false
         | Some s =>
             ps <- participants s ;;
             Normal (existsb (participantMatches authorName) ps)
         end)
        false
  end.

Definition checkGitAttribution
    (gitExtension : option GitExtension)
    (getWorkspaceFolder : Uri -> option string)
    (authorName : string) (documentUri : option Uri) : Completion bool :=
  match documentUri with
  | None => Normal false
  | Some uri =>
      match gitExtension with
      | None => Normal false
      | Some ext =>
          if negb (isActive ext) then Normal false
          else
            try_catch
              (gitApi <- getAPI ext ;;
               let repo :=
                 find (fun r => strict_eq (getWorkspaceFolder uri) (rootUriPath r))
                      (repositories gitApi) in
               match repo with
               | None => Normal false
               | Some _ => Normal false
               end)
              false
      end
  end.

Definition shouldPlaySound
    (svc : AttributionService)
    (gitExtension : option GitExtension)
    (getWorkspaceFolder : Uri -> option string)
    (config : DiffSoundsConfig) (documentUri : option Uri) : Completion bool :=
  if negb (enabled config) then Normal false
  else if String.eqb (attributionMode config) "any" then Normal true
  else if String.eqb (attributionMode config) "live-only" then
    checkLiveAttribution svc (authorName config)
  else if String.eqb (attributionMode config) "git-only" then
    checkGitAttribution gitExtension getWorkspaceFolder (authorName config)
                        documentUri
  else Normal false.

(** ** Host data: tabs, change events, timers *)

(** A tab's [input].  The handlers only ask whether it is an object with
    both an 'original' and a 'modified' member. *)
Inductive TabInput : Type :=
| TabInputTextDiff (original modified : Uri)
| TabInputText (uri : Uri)
| TabInputUndefined.

Record Tab : Type := mkTab { input : TabInput }.

Definition TabGroup : Type := list Tab.

(** [tab.input && typeof tab.input === 'object' && 'original' in tab.input
    && 'modified' in tab.input] *)
Definition isDiffInput (t : Tab) : bool :=
  match input t with
  | TabInputTextDiff _ _ => true
  | _ => false
  end.

Record TabChangeEvent : Type := mkTabChangeEvent {
  opened : list Tab;
  closed : list Tab
}.

Record TextDocumentContentChangeEvent : Type := mkChange {
  rangeLength : Z;
  text : string
}.

(** [change.text.length] *)
Definition textLength (c : TextDocumentContentChangeEvent) : Z :=
  Z.of_nat (String.length (text c)).

Record TextDocumentChangeEvent : Type := mkTextDocumentChangeEvent {
  document : Uri;
  contentChanges : list TextDocumentContentChangeEvent
}.

(** The argument of [debouncedPlay]. *)
Module Action.

Inductive t : Type := add | remove.

End Action.

(** The closure given to [setTimeout] by [debouncedPlay]: it captures
    [action] and the handler's [config]. *)
Inductive TimerCallback : Type :=
| debouncedFire (action : Action.t) (config : DiffSoundsConfig).

Record Timer : Type := mkTimer {
  handle : nat;
  deadline : Z;
  callback : TimerCallback
}.

(** The closure given to [onSoundCompleted] by the tab handler: it captures
    the handler's [config]. *)
Inductive CompletionCallback : Type :=
| startDiffActive (config : DiffSoundsConfig).

(** ** DiffSoundPlayer.ts: the player's fields *)

(** [Map<string, (() => void)[]>] keyed by sound id. *)
Definition CallbackMap : Type := list (Sound.id * list CompletionCallback).

Fixpoint map_get (k : Sound.id) (m : CallbackMap)
  : option (list CompletionCallback) :=
  match m with
  | [] => None
  | (k', v) :: rest => if Sound.eqb k' k then Some v else map_get k rest
  end.

Fixpoint map_set (k : Sound.id) (v : list CompletionCallback) (m : CallbackMap)
  : CallbackMap :=
  match m with
  | [] => [(k, v)]
  | (k', v') :: rest =>
      if Sound.eqb k' k then (k, v) :: rest else (k', v') :: map_set k v rest
  end.

Definition map_delete (k : Sound.id) (m : CallbackMap) : CallbackMap :=
  filter (fun kv => negb (Sound.eqb (fst kv) k)) m.

Record DiffSoundPlayer : Type := mkPlayer {
  audioWebviewPanel : bool;   (* is the hidden audio panel defined *)
  addSoundPath : string;
  removeSoundPath : string;
  diffOpenSoundPath : string;
  diffActiveSoundPath : string;
  diffCloseSoundPath : string;
  soundCompletionCallbacks : CallbackMap
}.

Definition set_soundCompletionCallbacks (m : CallbackMap) (p : DiffSoundPlayer)
  : DiffSoundPlayer :=
  {| audioWebviewPanel := audioWebviewPanel p;
     addSoundPath := addSoundPath p;
     removeSoundPath := removeSoundPath p;
     diffOpenSoundPath := diffOpenSoundPath p;
     diffActiveSoundPath := diffActiveSoundPath p;
     diffCloseSoundPath := diffCloseSoundPath p;
     soundCompletionCallbacks := m |}.

(** A message posted to the audio webview. *)
Inductive AudioMessage : Type :=
| playAudioMsg (sound : Sound.id) (volume : Q) (loop : bool)
| stopAudioMsg (sound : Sound.id).

(** ** The whole state *)

Record Host : Type := mkHost {
  configuration : Settings;            (* getConfiguration('diffSounds') *)
  tabGroups : list TabGroup;           (* vscode.window.tabGroups.all *)
  gitExtension : option GitExtension;  (* getExtension('vscode.git') *)
  getWorkspaceFolder : Uri -> option string
}.

Record World : Type := mkWorld {
  (* module variables of extension.ts *)
  timeout : option nat;
  lastConfigChangeTime : Z;
  isDuringConfigChange : bool;
  openDiffTabCount : Z;
  wasDiffActivePlaying : bool;
  isDisabled : bool;
  soundPlayer : DiffSoundPlayer;
  attributionService : AttributionService;
  (* the host *)
  host : Host;
  clock : Z;                           (* Date.now() *)
  timers : list Timer;                 (* pending timers, oldest first *)
  nextTimerId : nat;
  (* messages received by the audio webview, oldest first *)
  audioLog : list (Z * AudioMessage)
}.

Definition set_timeout (v : option nat) (w : World) : World :=
  mkWorld v (lastConfigChangeTime w) (isDuringConfigChange w)
    (openDiffTabCount w) (wasDiffActivePlaying w) (isDisabled w)
    (soundPlayer w) (attributionService w) (host w) (clock w) (timers w)
    (nextTimerId w) (audioLog w).

Definition set_openDiffTabCount (v : Z) (w : World) : World :=
  mkWorld (timeout w) (lastConfigChangeTime w) (isDuringConfigChange w)
    v (wasDiffActivePlaying w) (isDisabled w)
    (soundPlayer w) (attributionService w) (host w) (clock w) (timers w)
    (nextTimerId w) (audioLog w).

Definition set_wasDiffActivePlaying (v : bool) (w : World) : World :=
  mkWorld (timeout w) (lastConfigChangeTime w) (isDuringConfigChange w)
    (openDiffTabCount w) v (isDisabled w)
    (soundPlayer w) (attributionService w) (host w) (clock w) (timers w)
    (nextTimerId w) (audioLog w).

Definition set_isDisabled (v : bool) (w : World) : World :=
  mkWorld (timeout w) (lastConfigChangeTime w) (isDuringConfigChange w)
    (openDiffTabCount w) (wasDiffActivePlaying w) v
    (soundPlayer w) (attributionService w) (host w) (clock w) (timers w)
    (nextTimerId w) (audioLog w).

Definition set_soundPlayer (v : DiffSoundPlayer) (w : World) : World :=
  mkWorld (timeout w) (lastConfigChangeTime w) (isDuringConfigChange w)
    (openDiffTabCount w) (wasDiffActivePlaying w) (isDisabled w)
    v (attributionService w) (host w) (clock w) (timers w)
    (nextTimerId w) (audioLog w).

Definition set_host (v : Host) (w : World) : World :=
  mkWorld (timeout w) (lastConfigChangeTime w) (isDuringConfigChange w)
    (openDiffTabCount w) (wasDiffActivePlaying w) (isDisabled w)
    (soundPlayer w) (attributionService w) v (clock w) (timers w)
    (nextTimerId w) (audioLog w).

Definition set_clock (v : Z) (w : World) : World :=
  mkWorld (timeout w) (lastConfigChangeTime w) (isDuringConfigChange w)
    (openDiffTabCount w) (wasDiffActivePlaying w) (isDisabled w)
    (soundPlayer w) (attributionService w) (host w) v (timers w)
    (nextTimerId w) (audioLog w).

Definition set_timers (v : list Timer) (w : World) : World :=
  mkWorld (timeout w) (lastConfigChangeTime w) (isDuringConfigChange w)
    (openDiffTabCount w) (wasDiffActivePlaying w) (isDisabled w)
    (soundPlayer w) (attributionService w) (host w) (clock w) v
    (nextTimerId w) (audioLog w).

Definition set_nextTimerId (v : nat) (w : World) : World :=
  mkWorld (timeout w) (lastConfigChangeTime w) (isDuringConfigChange w)
    (openDiffTabCount w) (wasDiffActivePlaying w) (isDisabled w)
    (soundPlayer w) (attributionService w) (host w) (clock w) (timers w)
    v (audioLog w).

Definition set_audioLog (v : list (Z * AudioMessage)) (w : World) : World :=
  mkWorld (timeout w) (lastConfigChangeTime w) (isDuringConfigChange w)
    (openDiffTabCount w) (wasDiffActivePlaying w) (isDisabled w)
    (soundPlayer w) (attributionService w) (host w) (clock w) (timers w)
    (nextTimerId w) v.

(** ** Host timers *)

(** The largest delay of a host timer, [2^31 - 1] ms. *)
Definition TIMEOUT_MAX : Z := 2147483647.

(** The delay the host's [setTimeout] uses: a delay below 1 ms or above
    [TIMEOUT_MAX] is set to 1 ms. *)
Definition timerDelay (delay : Z) : Z :=
  if (delay <? 1) || (delay >? TIMEOUT_MAX) then 1 else delay.

(** [setTimeout(cb, delay)]: a fresh handle, due [timerDelay delay] ms from
    now. *)
Definition setTimeout (cb : TimerCallback) (delay : Z) (w : World)
  : nat * World :=
  let h := nextTimerId w in
  (h, set_nextTimerId (S h)
        (set_timers
           (timers w ++ [mkTimer h (clock w + timerDelay delay) cb]) w)).

(** [clearTimeout(h)]: drops the pending timer with that handle, if any. *)
Definition clearTimeout (h : nat) (w : World) : World :=
  set_timers (filter (fun tm => negb (Nat.eqb (handle tm) h)) (timers w)) w.

(** ** DiffSoundPlayer.ts: playback *)

(** [playAudio(soundId, volume, options)]: posts 'playAudio' to the audio
    panel when the panel exists. *)
Definition playAudio (soundId : Sound.id) (vol : Q) (loop : bool) (w : World)
  : World :=
  if audioWebviewPanel (soundPlayer w)
  then set_audioLog (audioLog w ++ [(clock w, playAudioMsg soundId vol loop)]) w
  else w.

(** [stopAudio(soundId)] *)
Definition stopAudio (soundId : Sound.id) (w : World) : World :=
  if audioWebviewPanel (soundPlayer w)
  then set_audioLog (audioLog w ++ [(clock w, stopAudioMsg soundId)]) w
  else w.

(** [x || dflt] on an optional number: [dflt] when [x] is undefined or 0. *)
Definition or_default (x : option Z) (dflt : Z) : Z :=
  match x with
  | None => dflt
  | Some v => if v =? 0 then dflt else v
  end.

(** [!path] on a string. *)
Definition isEmpty (path : string) : bool := String.eqb path EmptyString.

(** The play methods.  Their [config] parameter is optional in the source
    and guarded by [if (!config) return]; every caller passes one. *)
Definition playAdd (config : DiffSoundsConfig) (w : World) : World :=
  if isEmpty (addSoundPath (soundPlayer w))
     || negb (se_enabled (addSound config))
  then w
  else
    let individualVol :=
      (inject_Z (or_default (se_volume (addSound config)) 50) / 100)%Q in
    let masterVol :=
      (inject_Z (or_default (Some (volume config)) 100) / 100)%Q in
    let vol := (individualVol * masterVol)%Q in
    playAudio Sound.add vol false w.

Definition playRemove (config : DiffSoundsConfig) (w : World) : World :=
  if isEmpty (removeSoundPath (soundPlayer w))
     || negb (se_enabled (removeSound config))
  then w
  else
    let individualVol :=
      (inject_Z (or_default (se_volume (removeSound config)) 50) / 100)%Q in
    let masterVol :=
      (inject_Z (or_default (Some (volume config)) 100) / 100)%Q in
    let vol := (individualVol * masterVol)%Q in
    playAudio Sound.remove vol false w.

Definition playDiffOpen (config : DiffSoundsConfig) (w : World) : World :=
  if isEmpty (diffOpenSoundPath (soundPlayer w))
     || negb (se_enabled (diffOpenSound config))
  then w
  else
    let individualVol :=
      (inject_Z (or_default (se_volume (diffOpenSound config)) 50) / 100)%Q in
    let masterVol :=
      (inject_Z (or_default (Some (volume config)) 100) / 100)%Q in
    let vol := (individualVol * masterVol)%Q in
    playAudio Sound.diffopen vol false w.

Definition playDiffActive (config : DiffSoundsConfig) (w : World) : World :=
  if isEmpty (diffActiveSoundPath (soundPlayer w))
     || negb (se_enabled (diffActiveSound config))
  then w
  else
    let individualVol :=
      (inject_Z (or_default (se_volume (diffActiveSound config)) 100) / 100)%Q in
    let masterVol :=
      (inject_Z (or_default (Some (volume config)) 100) / 100)%Q in
    let vol := (individualVol * masterVol)%Q in
    playAudio Sound.diffactive vol true w.

Definition playDiffClose (config : DiffSoundsConfig) (w : World) : World :=
  if isEmpty (diffCloseSoundPath (soundPlayer w))
     || negb (se_enabled (diffCloseSound config))
  then w
  else
    let w1 := stopAudio Sound.diffactive w in
    let individualVol :=
      (inject_Z (or_default (se_volume (diffCloseSound config)) 100) / 100)%Q in
    let masterVol :=
      (inject_Z (or_default (Some (volume config)) 100) / 100)%Q in
    let vol := (individualVol * masterVol)%Q in
    playAudio Sound.diffclose vol false w1.

(** [onSoundCompleted(soundId, callback)] *)
Definition onSoundCompleted (soundId : Sound.id) (cb : CompletionCallback)
    (w : World) : World :=
  let m := soundCompletionCallbacks (soundPlayer w) in
  let m1 := match map_get soundId m with
            | None => map_set soundId [] m
            | Some _ => m
            end in
  let m2 := match map_get soundId m1 with
            | Some cbs => map_set soundId (cbs ++ [cb]) m1
            | None => m1
            end in
  set_soundPlayer (set_soundCompletionCallbacks m2 (soundPlayer w)) w.

(** The body of the closure registered by the tab handler. *)
Definition runCompletionCallback (cb : CompletionCallback) (w : World) : World :=
  match cb with
  | startDiffActive config =>
      if (openDiffTabCount w >? 0)
         && se_enabled (diffActiveSound config)
         && negb (isDisabled w)
         && enabled config
      then playDiffActive config w
      else w
  end.

(** The 'audioEnded' branch of the audio panel's message handler: runs the
    callbacks registered for the sound, in order, then forgets them. *)
Definition onAudioEnded (sound : Sound.id) (w : World) : World :=
  match map_get sound (soundCompletionCallbacks (soundPlayer w)) with
  | None => w
  | Some cbs =>
      let w1 := fold_left (fun acc cb => runCompletionCallback cb acc) cbs w in
      set_soundPlayer
        (set_soundCompletionCallbacks
           (map_delete sound (soundCompletionCallbacks (soundPlayer w1)))
           (soundPlayer w1))
        w1
  end.

(** ** extension.ts *)

Definition UI_INTERACTION_SUPPRESSION_MS : Z := 2000.

Definition tabShowsDocument (documentUri : Uri) (tab : Tab) : bool :=
  match input tab with
  | TabInputTextDiff originalUri modifiedUri =>
      String.eqb originalUri documentUri || String.eqb modifiedUri documentUri
  | _ => false
  end.

Definition isDocumentInDiffEditor (groups : list TabGroup) (documentUri : Uri)
  : bool :=
  existsb (fun tabGroup => existsb (tabShowsDocument documentUri) tabGroup)
          groups.

(** The closure [debouncedPlay] of the document-change handler; [config] is
    the configuration the handler read. *)
Definition debouncedPlay (config : DiffSoundsConfig) (action : Action.t)
    (w : World) : World :=
  let w1 := match timeout w with
            | Some h => clearTimeout h w
            | None => w
            end in
  let (h, w2) := setTimeout (debouncedFire action config) (debounceMs config) w1 in
  set_timeout (Some h) w2.

(** The body of the closure given to [setTimeout]. *)
Definition runTimerCallback (cb : TimerCallback) (w : World) : World :=
  match cb with
  | debouncedFire action config =>
      if isDuringConfigChange w then w
      else
        match action with
        | Action.add =>
            if se_enabled (addSound config) then playAdd config w else w
        | Action.remove =>
            if se_enabled (removeSound config) then playRemove config w else w
        end
  end.

(** The direction a content change schedules, if any. *)
Definition classify (change : TextDocumentContentChangeEvent)
  : option Action.t :=
  if (rangeLength change =? 0) && (textLength change >? 0) then
    Some Action.add
  else if (rangeLength change >? 0) && (textLength change =? 0) then
    Some Action.remove
  else if (rangeLength change >? 0) && (textLength change >? 0) then
    if textLength change >? rangeLength change then Some Action.add
    else if textLength change <? rangeLength change then Some Action.remove
    else None
  else None.

(** The loop over [e.contentChanges]. *)
Definition scheduleChanges (config : DiffSoundsConfig)
    (changes : list TextDocumentContentChangeEvent) (w : World) : World :=
  fold_left
    (fun acc change =>
       match classify change with
       | Some action => debouncedPlay config action acc
       | None => acc
       end)
    changes w.

(** The [onDidChangeTextDocument] listener.  Its one [await] is on the
    attribution gate; a gate that throws rejects the handler's promise and
    nothing more runs. *)
Definition onDidChangeTextDocument (e : TextDocumentChangeEvent) (w : World)
  : World :=
  if isDisabled w then w
  else if clock w - lastConfigChangeTime w <? UI_INTERACTION_SUPPRESSION_MS
  then w
  else
    let config := getVSCodeConfig (configuration (host w)) in
    match shouldPlaySound (attributionService w) (gitExtension (host w))
            (getWorkspaceFolder (host w)) config (Some (document e)) with
    | Normal true =>
        if negb (isDocumentInDiffEditor (tabGroups (host w)) (document e))
        then w
        else scheduleChanges config (contentChanges e) w
    | _ => w
    end.

(** The body of the loop over [e.closed]. *)
Definition tabClosed (config : DiffSoundsConfig) (w : World) (tabChange : Tab)
  : World :=
  if isDiffInput tabChange then
    if isDuringConfigChange w then w
    else
      let w1 := set_openDiffTabCount (openDiffTabCount w - 1) w in
      if (openDiffTabCount w1 =? 0) && se_enabled (diffCloseSound config)
      then playDiffClose config w1
      else w1
  else w.

(** The body of the loop over [e.opened]. *)
Definition tabOpened (config : DiffSoundsConfig) (w : World) (tabChange : Tab)
  : World :=
  if isDiffInput tabChange then
    if isDuringConfigChange w then w
    else
      let w1 := set_openDiffTabCount (openDiffTabCount w + 1) w in
      if se_enabled (diffOpenSound config) then
        playDiffOpen config
          (onSoundCompleted Sound.diffopen (startDiffActive config) w1)
      else if se_enabled (diffActiveSound config) then
        playDiffActive config w1
      else w1
  else w.

(** The [onDidChangeTabs] listener. *)
Definition onDidChangeTabs (e : TabChangeEvent) (w : World) : World :=
  if isDisabled w then w
  else
    let config := getVSCodeConfig (configuration (host w)) in
    if negb (enabled config) then w
    else
      let w1 := fold_left (tabClosed config) (closed e) w in
      fold_left (tabOpened config) (opened e) w1.

Definition stopAll (w : World) : World :=
  stopAudio Sound.diffclose
    (stopAudio Sound.diffopen
       (stopAudio Sound.remove
          (stopAudio Sound.add
             (stopAudio Sound.diffactive w)))).

(** The command 'diff-sounds.enable'.  The write of 'enabled' to the
    settings is asynchronous: the store changes later, outside this call. *)
Definition commandEnable (w : World) : World :=
  stopAll (set_isDisabled false w).

(** The command 'diff-sounds.disable'; the same remark applies. *)
Definition commandDisable (w : World) : World :=
  let w1 := stopAll (set_isDisabled true w) in
  set_wasDiffActivePlaying (openDiffTabCount w1 >? 0) w1.

(** ** The event loop *)

(** Insertion into a list ordered by deadline; among equal deadlines the
    timer set first runs first. *)
Fixpoint insertByDeadline (tm : Timer) (l : list Timer) : list Timer :=
  match l with
  | [] => [tm]
  | x :: rest =>
      if deadline tm <=? deadline x then tm :: l
      else x :: insertByDeadline tm rest
  end.

Definition firingOrder (l : list Timer) : list Timer :=
  fold_right insertByDeadline [] l.

Definition isDue (t : Z) (tm : Timer) : bool := deadline tm <=? t.

(** A timer runs at its deadline (or now, if that is already past). *)
Definition fireTimer (w : World) (tm : Timer) : World :=
  runTimerCallback (callback tm) (set_clock (Z.max (clock w) (deadline tm)) w).

(** Let time pass until the end of millisecond [t]: every timer due by
    then runs, in deadline order.  No timer callback of the extension sets
    a timer, so the timers due are those pending at the start.  A timer is
    due at least 1 ms after it was set, so it never runs before an event of
    the millisecond in which it was set.  When an event arrives in the very
    millisecond in which a timer is due, the host may run either first;
    [run] then runs the timer first, and the statements about timers below
    keep arrivals and deadlines apart. *)
Definition advance (t : Z) (w : World) : World :=
  let due := firingOrder (filter (isDue t) (timers w)) in
  let w1 := set_timers (filter (fun tm => negb (isDue t tm)) (timers w)) w in
  let w2 := fold_left fireTimer due w1 in
  set_clock (Z.max (clock w2) t) w2.

(** What the host delivers to the extension. *)
Inductive Event : Type :=
| DidChangeTextDocument (e : TextDocumentChangeEvent)
| DidChangeTabs (groups : list TabGroup) (e : TabChangeEvent)
| CommandEnable
| CommandDisable
| AudioEnded (sound : Sound.id).

Definition set_tabGroups (groups : list TabGroup) (h : Host) : Host :=
  mkHost (configuration h) groups (gitExtension h) (getWorkspaceFolder h).

(** A tab event arrives after the host has updated its tab groups to
    [groups]. *)
Definition dispatch (ev : Event) (w : World) : World :=
  match ev with
  | DidChangeTextDocument e => onDidChangeTextDocument e w
  | DidChangeTabs groups e =>
      onDidChangeTabs e (set_host (set_tabGroups groups (host w)) w)
  | CommandEnable => commandEnable w
  | CommandDisable => commandDisable w
  | AudioEnded sound => onAudioEnded sound w
  end.

(** Events in arrival order, without time passing in between. *)
Definition handleAll (evs : list Event) (w : World) : World :=
  fold_left (fun acc ev => dispatch ev acc) evs w.

(** Timed events: time passes until each event's arrival, then it is
    handled. *)
Definition run (evs : list (Z * Event)) (w : World) : World :=
  fold_left (fun acc te => dispatch (snd te) (advance (fst te) acc)) evs w.

(** ** Reading the log *)

Definition isPlayOf (s : Sound.id) (entry : Z * AudioMessage) : bool :=
  match snd entry with
  | playAudioMsg s' _ _ => Sound.eqb s' s
  | stopAudioMsg _ => false
  end.

Definition playsOf (s : Sound.id) (log : list (Z * AudioMessage)) : nat :=
  List.length (filter (isPlayOf s) log).

(** ** A concrete installation, used to run the model *)

Definition diffTab : Tab :=
  mkTab (TabInputTextDiff "git:/src/main.ts" "file:///src/main.ts").

Definition loadedPlayer : DiffSoundPlayer :=
  {| audioWebviewPanel := true;
     addSoundPath := "sounds/add.wav";
     removeSoundPath := "sounds/remove.wav";
     diffOpenSoundPath := "sounds/diffopen.wav";
     diffActiveSoundPath := "sounds/diffactive.wav";
     diffCloseSoundPath := "sounds/diffclose.wav";
     soundCompletionCallbacks := [] |}.

Definition hostWith (c : Settings) (groups : list TabGroup) : Host :=
  {| configuration := c;
     tabGroups := groups;
     gitExtension := None;
     getWorkspaceFolder := fun _ => None |}.

(** The state right after activation at time [now], with settings [c] and
    tab groups [groups], once the sounds are loaded. *)
Definition activated (c : Settings) (groups : list TabGroup) (now : Z) : World :=
  {| timeout := None;
     lastConfigChangeTime := 0;
     isDuringConfigChange := false;
     openDiffTabCount := 0;
     wasDiffActivePlaying := false;
     isDisabled := false;
     soundPlayer := loadedPlayer;
     attributionService := mkAttributionService None;
     host := hostWith c groups;
     clock := now;
     timers := [];
     nextTimerId := 0;
     audioLog := [] |}.

Definition insertion : TextDocumentContentChangeEvent := mkChange 0 "x".
Definition deletion : TextDocumentContentChangeEvent :=
  mkChange 1 EmptyString.

Definition editOf (changes : list TextDocumentContentChangeEvent)
  : TextDocumentChangeEvent :=
  mkTextDocumentChangeEvent "file:///src/main.ts" changes.


(** [w] with a configuration change in progress: the two variables as the
    configuration-change listener sets them when a change is notified at
    the current time ([lastConfigChangeTime = Date.now()],
    [isDuringConfigChange = true]). *)
Definition suppressing (w : World) : World :=
  mkWorld (timeout w) (clock w) true
    (openDiffTabCount w) (wasDiffActivePlaying w) (isDisabled w)
    (soundPlayer w) (attributionService w) (host w) (clock w) (timers w)
    (nextTimerId w) (audioLog w).

(** A git extension that is active and whose [getAPI] throws. *)
Definition throwingGit : option GitExtension :=
  Some (mkGitExtension true Throw).

(** ** Vocabulary of the statements *)

(** The volume the play methods compute from a role's volume, the role's
    constant and the master volume. *)
Definition linearVolume (roleVolume : option Z) (roleDefault masterVolume : Z)
  : Q :=
  (inject_Z (or_default roleVolume roleDefault) / 100
   * (inject_Z (or_default (Some masterVolume) 100) / 100))%Q.

Definition isInsertion (c : TextDocumentContentChangeEvent) : bool :=
  (rangeLength c =? 0) && (textLength c >? 0).


(** A document-change notification: its arrival time and its changes. *)
Definition Notification : Type :=
  (Z * list TextDocumentContentChangeEvent)%type.

Definition arrivals (doc : Uri) (burst : list Notification)
  : list (Z * Event) :=
  map (fun n => (fst n,
                 DidChangeTextDocument (mkTextDocumentChangeEvent doc (snd n))))
      burst.

(** The arrival time of the last notification of a burst that started at
    [t]. *)
Fixpoint lastArrival (t : Z) (rest : list Notification) : Z :=
  match rest with
  | [] => t
  | n :: later => lastArrival (fst n) later
  end.

(** The direction scheduled last by a list of changes. *)
Fixpoint lastAction (changes : list TextDocumentContentChangeEvent)
  : option Action.t :=
  match changes with
  | [] => None
  | change :: rest =>
      match lastAction rest with
      | Some a => Some a
      | None => classify change
      end
  end.

(** The direction scheduled last by a burst, [a] if it schedules none. *)
Fixpoint lastDirection (a : Action.t) (rest : list Notification) : Action.t :=
  match rest with
  | [] => a
  | n :: later =>
      lastDirection
        (match lastAction (snd n) with Some a' => a' | None => a end) later
  end.

(** Each notification arrives no earlier than the one before, and before
    [hi]. *)
Fixpoint inWindow (t hi : Z) (rest : list Notification) : Prop :=
  match rest with
  | [] => True
  | n :: later => t <= fst n /\ fst n < hi /\ inWindow (fst n) hi later
  end.

(** The sound of direction [a] can play: its role is enabled in [config]
    and its file is resolved in [w]. *)
Definition playable (a : Action.t) (config : DiffSoundsConfig) (w : World)
  : Prop :=
  match a with
  | Action.add =>
      se_enabled (addSound config) = true
      /\ isEmpty (addSoundPath (soundPlayer w)) = false
  | Action.remove =>
      se_enabled (removeSound config) = true
      /\ isEmpty (removeSoundPath (soundPlayer w)) = false
  end.

(** The message a debounce timer of direction [a] posts. *)
Definition debouncedMessage (a : Action.t) (config : DiffSoundsConfig)
  : AudioMessage :=
  match a with
  | Action.add =>
      playAudioMsg Sound.add
        (linearVolume (se_volume (addSound config)) 50 (volume config)) false
  | Action.remove =>
      playAudioMsg Sound.remove
        (linearVolume (se_volume (removeSound config)) 50 (volume config)) false
  end.

(** [base] with the clock at [now] and exactly one debounce timer pending,
    the one [timeout] names. *)
Definition pendingWorld (base : World) (now : Z) (h : nat) (due : Z)
    (action : Action.t) (config : DiffSoundsConfig) : World :=
  mkWorld (Some h) (lastConfigChangeTime base) (isDuringConfigChange base)
    (openDiffTabCount base) (wasDiffActivePlaying base) (isDisabled base)
    (soundPlayer base) (attributionService base) (host base) now
    [mkTimer h due (debouncedFire action config)] (S h) (audioLog base).

(** [w] agrees with [base] on what the document-change listener reads
    before it schedules, the clock apart. *)
Definition sameSetting (base w : World) : Prop :=
  lastConfigChangeTime w = lastConfigChangeTime base
  /\ isDisabled w = isDisabled base
  /\ attributionService w = attributionService base
  /\ host w = host base.

Definition isEditOrTabEvent (ev : Event) : Prop :=
  match ev with
  | DidChangeTextDocument _ | DidChangeTabs _ _ => True
  | _ => False
  end.


(** The tab events of the lifecycle: one comparison tab opens, or closes. *)
Definition openTab (tab : Tab) (w : World) : World :=
  onDidChangeTabs (mkTabChangeEvent [tab] []) w.








(** ** Concrete runs *)

Definition mainDoc : Uri := "file:///src/main.ts".

(** Default settings, one comparison tab on [mainDoc], time 10000. *)
Definition editing : World := activated [] [[diffTab]] 10000.

(** The same with a debounce interval of 300 ms. *)
Definition editingSlow : World :=
  activated [("debounceMs", VNumber 300)] [[diffTab]] 10000.

(** An insertion has set the debounce timer, then the disable command
    ran, all at time 10000. *)
Definition disabledWithPendingTimer : World :=
  commandDisable (onDidChangeTextDocument (editOf [insertion]) editing).

(** With a debounce interval of 300 ms: an insertion at 10000, the
    disable command at 10100. *)
Definition disabledWithPendingSlowTimer : World :=
  commandDisable
    (advance 10100 (onDidChangeTextDocument (editOf [insertion]) editingSlow)).

(** The comparison tab that was open at activation closes; a comparison
    tab then opens and its open cue ends. *)
Definition closedThenReopened : World :=
  handleAll
    [DidChangeTabs [] (mkTabChangeEvent [] [diffTab]);
     DidChangeTabs [[diffTab]] (mkTabChangeEvent [diffTab] []);
     AudioEnded Sound.diffopen]
    editing.

(** A configuration change is in progress. *)
Definition suppressed : World := suppressing (activated [] [] 10000).

(** The settings switch the add sound off and the remove sound on. *)
Definition removeOnly : Settings :=
  [("addSound.enabled", VBool false); ("removeSound.enabled", VBool true)].

(** A debounce interval beyond the range of the host's timers. *)
Definition editingOverflow : World :=
  activated [("debounceMs", VNumber 3000000000)] [[diffTab]] 10000.

Definition twoInsertions : list Notification :=
  [(10000, [insertion]); (10100, [insertion])].

Definition insertionBurst : list Notification :=
  [(10000, [insertion]); (10100, [insertion; insertion]); (10250, [insertion])].

(** ** Vocabulary of the further properties *)

(** No timer is pending, or exactly one, the one [timeout] holds. *)
Definition singleSlot (w : World) : Prop :=
  timers w = []
  \/ exists tm, timers w = [tm] /\ timeout w = Some (handle tm).

(** [w'] has the timers and the timer slot of [w]. *)
Definition keepsTimers (w w' : World) : Prop :=
  timers w' = timers w /\ timeout w' = timeout w.

(** [w'] has the audio panel of [w] and, if there is none, its log. *)
Definition mute (w w' : World) : Prop :=
  audioWebviewPanel (soundPlayer w') = audioWebviewPanel (soundPlayer w)
  /\ (audioWebviewPanel (soundPlayer w) = false -> audioLog w' = audioLog w).

(** A run that mixes edits, a tab event and the disable command. *)
Definition mixedRun : list (Z * Event) :=
  [(10000, DidChangeTextDocument (editOf [insertion; deletion]));
   (10050, DidChangeTabs [[diffTab]] (mkTabChangeEvent [diffTab] []));
   (10060, AudioEnded Sound.diffopen);
   (10100, DidChangeTextDocument (editOf [deletion; insertion]));
   (10150, CommandDisable)].

(** [editingSlow] without the audio panel. *)
Definition withoutPanel : World :=
  set_soundPlayer
    (mkPlayer false "a.wav" "r.wav" "o.wav" "l.wav" "c.wav" []) editingSlow.

(** Some participant of the session is called [author]. *)
Definition authorPresent (svc : AttributionService) (author : string) : Prop :=
  exists api s ps p u,
    liveShareApi svc = Some api
    /\ session api = Some s
    /\ participants s = Normal ps
    /\ In p ps
    /\ userInfo p = Some u
    /\ (displayName u = Some author \/ userName u = Some author).

(** A Live Share session with one participant, "Cline". *)
Definition sessionWithCline : AttributionService :=
  mkAttributionService
    (Some (mkLiveShareApi
       (Some (mkSession
          (Normal [mkParticipant None;
                   mkParticipant (Some (mkUserInfo (Some "Cline") None))]))))).

(** The direction a notification schedules last ([add] if none). *)
Definition directionOf (n : Notification) : Action.t :=
  match lastAction (snd n) with Some a => a | None => Action.add end.

(** The play a notification gets when its timer is left to fire. *)
Definition ownPlay (config : DiffSoundsConfig) (n : Notification)
  : Z * AudioMessage :=
  (fst n + timerDelay (debounceMs config),
   debouncedMessage (directionOf n) config).

(** Each notification arrives more than [d] after the one before. *)
Fixpoint spaced (d t : Z) (rest : list Notification) : Prop :=
  match rest with
  | [] => True
  | n :: later => t + d < fst n /\ spaced d (fst n) later
  end.

(** [base] after its one pending timer has fired and posted [entry]. *)
Definition firedWorld (base : World) (now : Z) (h : nat)
    (entry : Z * AudioMessage) : World :=
  mkWorld (Some h) (lastConfigChangeTime base) (isDuringConfigChange base)
    (openDiffTabCount base) (wasDiffActivePlaying base) (isDisabled base)
    (soundPlayer base) (attributionService base) (host base) now
    [] (S h) (audioLog base ++ [entry]).


(** The five stops of the enable and disable commands. *)
Definition fiveStops (t : Z) : list (Z * AudioMessage) :=
  [(t, stopAudioMsg Sound.diffactive);
   (t, stopAudioMsg Sound.add);
   (t, stopAudioMsg Sound.remove);
   (t, stopAudioMsg Sound.diffopen);
   (t, stopAudioMsg Sound.diffclose)].

(** ** The test buttons of the settings panel *)

(** [testDiffActive]: the active sound once, not looped. *)
Definition testDiffActive (config : DiffSoundsConfig) (w : World) : World :=
  if isEmpty (diffActiveSoundPath (soundPlayer w))
     || negb (se_enabled (diffActiveSound config))
  then w
  else
    let individualVol :=
      (inject_Z (or_default (se_volume (diffActiveSound config)) 100) / 100)%Q in
    let masterVol :=
      (inject_Z (or_default (Some (volume config)) 100) / 100)%Q in
    let vol := (individualVol * masterVol)%Q in
    playAudio Sound.diffactive vol false w.

(** [testDiffClose]: the close cue, without stopping the active loop. *)
Definition testDiffClose (config : DiffSoundsConfig) (w : World) : World :=
  if isEmpty (diffCloseSoundPath (soundPlayer w))
     || negb (se_enabled (diffCloseSound config))
  then w
  else
    let individualVol :=
      (inject_Z (or_default (se_volume (diffCloseSound config)) 100) / 100)%Q in
    let masterVol :=
      (inject_Z (or_default (Some (volume config)) 100) / 100)%Q in
    let vol := (individualVol * masterVol)%Q in
    playAudio Sound.diffclose vol false w.

(** What the 'testSound' branch does to the tested role's entry: the
    message's volume, when it carries one, and [enabled = true]. *)
Definition entryForTest (messageVolume : option Z) (entry : SoundEntry)
  : SoundEntry :=
  {| se_enabled := true;
     se_volume := match messageVolume with
                  | Some v => Some v
                  | None => se_volume entry
                  end |}.

Definition configForTest (sound : Sound.id) (messageVolume : option Z)
    (c : DiffSoundsConfig) : DiffSoundsConfig :=
  mkConfig (enabled c) (attributionMode c) (authorName c)
    (match sound with
     | Sound.add => entryForTest messageVolume (addSound c)
     | _ => addSound c
     end)
    (match sound with
     | Sound.remove => entryForTest messageVolume (removeSound c)
     | _ => removeSound c
     end)
    (match sound with
     | Sound.diffopen => entryForTest messageVolume (diffOpenSound c)
     | _ => diffOpenSound c
     end)
    (match sound with
     | Sound.diffactive => entryForTest messageVolume (diffActiveSound c)
     | _ => diffActiveSound c
     end)
    (match sound with
     | Sound.diffclose => entryForTest messageVolume (diffCloseSound c)
     | _ => diffCloseSound c
     end)
    (volume c) (debounceMs c).

(** The 'testSound' branch of the settings panel's message handler, for a
    message that names one of the five sounds. *)
Definition onTestSound (sound : Sound.id) (messageVolume : option Z)
    (w : World) : World :=
  let testConfig :=
    configForTest sound messageVolume
      (getVSCodeConfig (configuration (host w))) in
  match sound with
  | Sound.add => playAdd testConfig w
  | Sound.remove => playRemove testConfig w
  | Sound.diffopen => playDiffOpen testConfig w
  | Sound.diffactive => testDiffActive testConfig w
  | Sound.diffclose => testDiffClose testConfig w
  end.

(** A role's entry, constant and resolved path. *)
Definition roleEntry (s : Sound.id) (c : DiffSoundsConfig) : SoundEntry :=
  match s with
  | Sound.add => addSound c
  | Sound.remove => removeSound c
  | Sound.diffopen => diffOpenSound c
  | Sound.diffactive => diffActiveSound c
  | Sound.diffclose => diffCloseSound c
  end.

Definition roleConstant (s : Sound.id) : Z :=
  match s with
  | Sound.add | Sound.remove | Sound.diffopen => 50
  | Sound.diffactive | Sound.diffclose => 100
  end.

Definition rolePath (s : Sound.id) (p : DiffSoundPlayer) : string :=
  match s with
  | Sound.add => addSoundPath p
  | Sound.remove => removeSoundPath p
  | Sound.diffopen => diffOpenSoundPath p
  | Sound.diffactive => diffActiveSoundPath p
  | Sound.diffclose => diffCloseSoundPath p
  end.

(** Everything switched off in the settings, the disable command run, a
    configuration change in progress. *)
Definition allOff : World :=
  suppressing
    (set_isDisabled true
       (activated
          [("enabled", VBool false); ("addSound.enabled", VBool false);
           ("diffActiveSound.enabled", VBool false)]
          [] 10000)).

(** ** SoundDetector.ts *)

(** File names are byte strings.  [toLowerCase] acts on the ASCII
    letters, the only ones the keywords and extensions below contain. *)
Definition lowerAscii (c : ascii) : ascii :=
  let n := nat_of_ascii c in
  if (65 <=? n)%nat && (n <=? 90)%nat then ascii_of_nat (n + 32) else c.

Fixpoint toLowerCase (s : string) : string :=
  match s with
  | EmptyString => EmptyString
  | String c rest => String (lowerAscii c) (toLowerCase rest)
  end.

(** [s.includes(sub)] *)
Fixpoint includes (s sub : string) : bool :=
  String.prefix sub s
  || match s with
     | EmptyString => false
     | String _ rest => includes rest sub
     end.

(** The suffix of [s] that starts at its last dot. *)
Fixpoint fromLastDot (s : string) : option string :=
  match s with
  | EmptyString => None
  | String c rest =>
      match fromLastDot rest with
      | Some suffix => Some suffix
      | None => if Ascii.eqb c "." then Some s else None
      end
  end.

(** Node's [path.extname] on a file name without separators: from the
    last dot to the end; empty when there is no dot, when the only dot is
    the first character, and for the name [..]. *)
Definition extname (name : string) : string :=
  match fromLastDot name with
  | None => EmptyString
  | Some suffix =>
      if (String.length suffix =? String.length name)%nat
         || String.eqb name ".."
      then EmptyString
      else suffix
  end.

(** [name] without its ending [suffix], if it ends with it. *)
Fixpoint stripSuffix (name suffix : string) : option string :=
  if String.eqb name suffix then Some EmptyString
  else match name with
       | EmptyString => None
       | String c rest => option_map (String c) (stripSuffix rest suffix)
       end.

(** Node's [path.basename(name, ext)] on a file name without separators. *)
Definition basename (name ext : string) : string :=
  if String.eqb ext EmptyString then name
  else if String.eqb name ext then EmptyString
  else match stripSuffix name ext with
       | Some base => base
       | None => name
       end.

(** [ext.substring(1)] *)
Definition substring1 (s : string) : string :=
  match s with
  | EmptyString => EmptyString
  | String _ rest => rest
  end.

(** The string of a sound id. *)
Definition soundName (s : Sound.id) : string :=
  match s with
  | Sound.add => "add"
  | Sound.remove => "remove"
  | Sound.diffopen => "diffopen"
  | Sound.diffactive => "diffactive"
  | Sound.diffclose => "diffclose"
  end.

Definition audioExtensions : list string :=
  [".wav"; ".mp3"; ".ogg"; ".m4a"; ".aac"; ".flac"].

Definition isAudioExtension (ext : string) : bool :=
  existsb (String.eqb ext) audioExtensions.

(** [guessSoundType] *)
Definition guessSoundType (filename : string) : option Sound.id :=
  let lowerFilename := toLowerCase filename in
  if includes lowerFilename "diffopen" || includes lowerFilename "diff-open"
     || includes lowerFilename "diff_open" || String.eqb lowerFilename "diffopen"
  then Some Sound.diffopen
  else if includes lowerFilename "diffactive"
          || includes lowerFilename "diff-active"
          || includes lowerFilename "diff_active"
          || String.eqb lowerFilename "diffactive"
  then Some Sound.diffactive
  else if includes lowerFilename "diffclose"
          || includes lowerFilename "diff-close"
          || includes lowerFilename "diff_close"
          || String.eqb lowerFilename "diffclose"
  then Some Sound.diffclose
  else if includes lowerFilename "add" || includes lowerFilename "insert"
          || includes lowerFilename "create" || String.eqb lowerFilename "plus"
  then Some Sound.add
  else if includes lowerFilename "remove" || includes lowerFilename "delete"
          || includes lowerFilename "cut" || String.eqb lowerFilename "minus"
  then Some Sound.remove
  else None.

(** [DetectedSoundFile] (types.ts); [fileExists] and [soundType] are the
    members [exists] and [type]; the two optional origin flags are false
    when absent. *)
Record DetectedSoundFile : Type := mkDetected {
  filename : string;
  filepath : string;
  fileExists : bool;
  soundType : Sound.id;
  fileFormat : string;
  isUserSound : bool;
  isDefaultSound : bool
}.

(** One name returned by [readdirSync], with what [statSync] and
    [existsSync] answer for it. *)
Record DirEntry : Type := mkDirEntry {
  entryName : string;
  isDirectory : Completion bool;
  existsNow : bool
}.

(** What the file system answers to one scan: the creation of the two
    folders when missing, and their listings. *)
Record SoundsFolders : Type := mkSoundsFolders {
  ensureFolders : Completion unit;
  userListing : Completion (list DirEntry);
  defaultsListing : Completion (list DirEntry)
}.

Section Detector.

(** [path.join] and the extension's installation path. *)
Variable join : list string -> string.
Variable extensionPath : string.

Definition soundsFolder : string := "sounds".

Definition soundsPath : string := join [extensionPath; soundsFolder].

Definition defaultsPath : string := join [soundsPath; "Defaults"].

(** The loop over the sounds folder; the boolean tells whether it ran to
    its end ([statSync] did not throw). *)
Fixpoint scanUserFiles (files : list DirEntry)
    (detected : list DetectedSoundFile) : list DetectedSoundFile * bool :=
  match files with
  | [] => (detected, true)
  | file :: rest =>
      match isDirectory file with
      | Throw => (detected, false)
      | Normal true => scanUserFiles rest detected
      | Normal false =>
          let ext := toLowerCase (extname (entryName file)) in
          let baseName := basename (entryName file) ext in
          if isAudioExtension ext then
            match guessSoundType baseName with
            | Some type =>
                scanUserFiles rest
                  (detected
                   ++ [mkDetected (entryName file)
                         (join [soundsPath; entryName file])
                         (existsNow file) type (substring1 ext) true false])
            | None => scanUserFiles rest detected
            end
          else scanUserFiles rest detected
      end
  end.

(** The loop over the Defaults folder. *)
Fixpoint scanDefaultFiles (files : list DirEntry)
    (detected : list DetectedSoundFile) : list DetectedSoundFile * bool :=
  match files with
  | [] => (detected, true)
  | file :: rest =>
      match isDirectory file with
      | Throw => (detected, false)
      | Normal true => scanDefaultFiles rest detected
      | Normal false =>
          let ext := toLowerCase (extname (entryName file)) in
          let baseName := basename (entryName file) ext in
          if isAudioExtension ext then
            match guessSoundType baseName with
            | Some type =>
                let userHasThisSound :=
                  existsb (fun d => Sound.eqb (soundType d) type
                                    && isUserSound d) detected in
                if negb userHasThisSound then
                  scanDefaultFiles rest
                    (detected
                     ++ [mkDetected (entryName file)
                           (join [defaultsPath; entryName file])
                           (existsNow file) type (substring1 ext) false true])
                else scanDefaultFiles rest detected
            | None => scanDefaultFiles rest detected
            end
          else scanDefaultFiles rest detected
      end
  end.

(** [scanSoundFiles]: whatever throws, the files detected so far are
    returned. *)
Definition scanSoundFiles (fs : SoundsFolders) : list DetectedSoundFile :=
  match ensureFolders fs with
  | Throw => []
  | Normal _ =>
      match userListing fs with
      | Throw => []
      | Normal files =>
          match scanUserFiles files [] with
          | (detected, false) => detected
          | (detected, true) =>
              match defaultsListing fs with
              | Throw => detected
              | Normal defaults => fst (scanDefaultFiles defaults detected)
              end
          end
      end
  end.

End Detector.

(** [a || b] on two possibly undefined objects. *)
Definition orElse {A : Type} (a b : option A) : option A :=
  match a with Some _ => a | None => b end.

(** [findBestMatch] *)
Definition findBestMatch (detectedFiles : list DetectedSoundFile)
    (type : Sound.id) : option DetectedSoundFile :=
  let exactMatch :=
    find (fun f =>
            Sound.eqb (soundType f) type
            && String.eqb
                 (toLowerCase (basename (filename f) (extname (filename f))))
                 (soundName type))
         detectedFiles in
  match exactMatch with
  | Some f => Some f
  | None =>
      let typeMatches :=
        filter (fun f => Sound.eqb (soundType f) type) detectedFiles in
      if (0 <? List.length typeMatches)%nat then
        orElse (find (fun f => String.eqb (fileFormat f) "wav") typeMatches)
          (orElse (find (fun f => String.eqb (fileFormat f) "mp3") typeMatches)
                  (hd_error typeMatches))
      else None
  end.

(** The formats of the audio extensions. *)
Definition audioFormats : list string :=
  ["wav"; "mp3"; "ogg"; "m4a"; "aac"; "flac"].

(** The name under which [scanSoundFiles] classifies a directory entry. *)
Definition scannedBaseName (name : string) : string :=
  basename name (toLowerCase (extname name)).

(** [f] describes the entry [e] of the folder [folderPath]. *)
Definition describes (join : list string -> string) (folderPath : string)
    (e : DirEntry) (f : DetectedSoundFile) : Prop :=
  isDirectory e = Normal false
  /\ filename f = entryName e
  /\ filepath f = join [folderPath; entryName e]
  /\ fileExists f = existsNow e
  /\ In (fileFormat f) audioFormats
  /\ guessSoundType (scannedBaseName (entryName e)) = Some (soundType f).

(** [f] was listed from the sounds folder itself. *)
Definition userFile (join : list string -> string) (extensionPath : string)
    (fs : SoundsFolders) (f : DetectedSoundFile) : Prop :=
  isUserSound f = true /\ isDefaultSound f = false
  /\ exists files e,
       userListing fs = Normal files /\ In e files
       /\ describes join (soundsPath join extensionPath) e f.

(** [f] was listed from the Defaults folder. *)
Definition defaultFile (join : list string -> string) (extensionPath : string)
    (fs : SoundsFolders) (f : DetectedSoundFile) : Prop :=
  isUserSound f = false /\ isDefaultSound f = true
  /\ exists files e,
       defaultsListing fs = Normal files /\ In e files
       /\ describes join (defaultsPath join extensionPath) e f.

(** The file name of [f] without its extension is the sound's own name. *)
Definition exactlyNamed (type : Sound.id) (f : DetectedSoundFile) : bool :=
  String.eqb (toLowerCase (basename (filename f) (extname (filename f))))
             (soundName type).

(** A sounds folder with one user file, the Defaults folder with two. *)
Definition sampleFolders : SoundsFolders :=
  mkSoundsFolders (Normal tt)
    (Normal [mkDirEntry "Defaults" (Normal true) true;
             mkDirEntry "My-Insert.MP3" (Normal false) true;
             mkDirEntry "notes.txt" (Normal false) true])
    (Normal [mkDirEntry "add.wav" (Normal false) true;
             mkDirEntry "remove.wav" (Normal false) true;
             mkDirEntry "README.txt" (Normal false) true]).

(** A join for the examples: the segments, separated by slashes. *)
Definition simpleJoin (l : list string) : string := String.concat "/" l.

Definition userInsert : DetectedSoundFile :=
  mkDetected "My-Insert.MP3" "/ext/sounds/My-Insert.MP3" true Sound.add "mp3"
    true false.

Definition defaultRemove : DetectedSoundFile :=
  mkDetected "remove.wav" "/ext/sounds/Defaults/remove.wav" true Sound.remove
    "wav" false true.

Definition createdMp3 : DetectedSoundFile :=
  mkDetected "created.mp3" "/ext/sounds/created.mp3" true Sound.add "mp3"
    true false.

Definition myAddWav : DetectedSoundFile :=
  mkDetected "my-add.wav" "/ext/sounds/my-add.wav" true Sound.add "wav"
    true false.

Definition threeAdds : list DetectedSoundFile :=
  [mkDetected "insert.ogg" "/ext/sounds/insert.ogg" true Sound.add "ogg"
     true false;
   createdMp3; myAddWav].

(** ** Reloading the sounds *)

(** The members [filename] and [isDefault] of a [SoundEntry], which only
    the detector writes; an absent [isDefault] reads as false. *)
Record SoundEntryFile : Type := mkEntryFile {
  se_filename : option string;
  se_isDefault : bool
}.

(** These members for the five entries of one configuration object. *)
Definition ConfigFiles : Type := Sound.id -> SoundEntryFile.

Definition noFiles : ConfigFiles := fun _ => mkEntryFile None false.

Section Reload.

Variable join : list string -> string.
Variable extensionPath : string.

(** [updateConfigWithDetectedFiles]: an entry for which no file is found
    keeps what it had. *)
Definition updateConfigWithDetectedFiles (fs : SoundsFolders)
    (files : ConfigFiles) : ConfigFiles :=
  let detectedFiles := scanSoundFiles join extensionPath fs in
  fun s =>
    match findBestMatch detectedFiles s with
    | Some m => mkEntryFile (Some (filename m)) (isDefaultSound m || false)
    | None => files s
    end.

(** [getSoundFilePath] *)
Definition getSoundFilePath (soundEntry : SoundEntryFile) : string :=
  match se_filename soundEntry with
  | Some f =>
      if isEmpty f then EmptyString
      else
        let subfolder :=
          if se_isDefault soundEntry then "Defaults" else EmptyString in
        join [extensionPath; soundsFolder; subfolder; f]
  | None => EmptyString
  end.

(** [preloadSounds], once the call has settled: the audio panel follows
    the master flag of [config] (the host creates the panel when asked),
    the files of [config] are updated from a scan, and each path is
    resolved if the role is enabled in [config], else empty.  The buffers
    it then loads are not part of the state. *)
Definition preloadSounds (config : DiffSoundsConfig) (fs : SoundsFolders)
    (files : ConfigFiles) (p : DiffSoundPlayer)
  : ConfigFiles * DiffSoundPlayer :=
  let panel :=
    if enabled config then
      if negb (audioWebviewPanel p) then true else audioWebviewPanel p
    else
      if audioWebviewPanel p then false else audioWebviewPanel p in
  let files' := updateConfigWithDetectedFiles fs files in
  let pathOf (s : Sound.id) :=
    if se_enabled (roleEntry s config) then getSoundFilePath (files' s)
    else EmptyString in
  (files',
   mkPlayer panel (pathOf Sound.add) (pathOf Sound.remove)
     (pathOf Sound.diffopen) (pathOf Sound.diffactive)
     (pathOf Sound.diffclose) (soundCompletionCallbacks p)).

(** [getConfig]: [currentConfig] is assigned once, at activation. *)
Definition getConfig (currentConfig : option DiffSoundsConfig)
    (settings : Settings) : DiffSoundsConfig :=
  match currentConfig with
  | Some c => c
  | None => getVSCodeConfig settings
  end.

(** The command 'diff-sounds.reloadSounds'; the configuration-change
    listeners and the 'restoreDefaults' message make the same call. *)
Definition commandReloadSounds (currentConfig : option DiffSoundsConfig)
    (fs : SoundsFolders) (files : ConfigFiles) (w : World)
  : ConfigFiles * World :=
  let config := getConfig currentConfig (configuration (host w)) in
  let (files', p) := preloadSounds config fs files (soundPlayer w) in
  (files', set_soundPlayer p w).

(** What happens after activation: the host delivers an event, or the
    reload command runs and finds the folders as [fs]; each at its time.
    The files travel with the cached configuration object. *)
Inductive Step : Type :=
| HostEvent (t : Z) (ev : Event)
| ReloadSounds (t : Z) (fs : SoundsFolders).

Definition step (currentConfig : option DiffSoundsConfig)
    (acc : ConfigFiles * World) (st : Step) : ConfigFiles * World :=
  match st with
  | HostEvent t ev => (fst acc, dispatch ev (advance t (snd acc)))
  | ReloadSounds t fs =>
      commandReloadSounds currentConfig fs (fst acc) (advance t (snd acc))
  end.

Definition runSteps (currentConfig : option DiffSoundsConfig)
    (steps : list Step) (acc : ConfigFiles * World) : ConfigFiles * World :=
  fold_left (step currentConfig) steps acc.

End Reload.

(** The plays of [s] in a log. *)
Definition playsIn (s : Sound.id) (log : list (Z * AudioMessage))
  : list (Z * AudioMessage) :=
  filter (isPlayOf s) log.

(** [w'] has the sound paths of [w] and, if the path of [s] is empty, no
    more plays of [s]. *)
Definition silent (s : Sound.id) (w w' : World) : Prop :=
  (forall r, rolePath r (soundPlayer w') = rolePath r (soundPlayer w))
  /\ (isEmpty (rolePath s (soundPlayer w)) = true ->
      playsIn s (audioLog w') = playsIn s (audioLog w)).

(** The settings as they were at activation: the add sound off. *)
Definition addOffAtActivation : DiffSoundsConfig :=
  getVSCodeConfig [("addSound.enabled", VBool false)].

(** Insertions and a comparison tab opening and closing. *)
Definition busyRun : list (Z * Event) :=
  [(10000, DidChangeTextDocument (editOf [insertion]));
   (10050, DidChangeTabs [[diffTab]] (mkTabChangeEvent [diffTab] []));
   (10060, AudioEnded Sound.diffopen);
   (10100, DidChangeTextDocument (editOf [insertion; insertion]));
   (10200, DidChangeTabs [] (mkTabChangeEvent [] [diffTab]))].

(** Only the Defaults folder holds files, none for the add sound. *)
Definition foldersWithoutAdd : SoundsFolders :=
  mkSoundsFolders (Normal tt) (Normal [])
    (Normal [mkDirEntry "remove.wav" (Normal false) true;
             mkDirEntry "diffopen.wav" (Normal false) true]).

(** The same, with the sounds reloaded twice on the way. *)
Definition busySteps : list Step :=
  [HostEvent 10000 (DidChangeTextDocument (editOf [insertion]));
   ReloadSounds 10020 sampleFolders;
   HostEvent 10050 (DidChangeTabs [[diffTab]] (mkTabChangeEvent [diffTab] []));
   HostEvent 10060 (AudioEnded Sound.diffopen);
   HostEvent 10100 (DidChangeTextDocument (editOf [insertion; insertion]));
   ReloadSounds 10150 foldersWithoutAdd;
   HostEvent 10200 (DidChangeTabs [] (mkTabChangeEvent [] [diffTab]))].

(** * Properties *)

Lemma Sound_eqb_refl (a : Sound.id) : Sound.eqb a a = true.
Proof. destruct a; reflexivity. Qed.


(** ** The attribution gate *)

Lemma checkGitAttribution_false git wsf author doc :
  checkGitAttribution git wsf author doc = Normal false.
Proof.
  unfold checkGitAttribution.
  destruct doc as [uri|]; [|reflexivity].
  destruct git as [ext|]; [|reflexivity].
  destruct (isActive ext); simpl; [|reflexivity].
  destruct (getAPI ext) as [api|]; simpl; [|reflexivity].
  destruct (find _ (repositories api)); reflexivity.
Qed.

(** C10.  The gate answers false when the master flag is off; true for a
    configuration that is enabled and in mode 'any', whatever the author,
    the document and the collaborators' state; and false, without ever
    throwing, in mode 'git-only'. *)
Theorem shouldPlaySound_gate :
  forall svc git wsf config doc,
    (enabled config = false ->
     shouldPlaySound svc git wsf config doc = Normal false)
    /\ (enabled config = true -> attributionMode config = "any" ->
        shouldPlaySound svc git wsf config doc = Normal true)
    /\ (attributionMode config = "git-only" ->
        shouldPlaySound svc git wsf config doc = Normal false).
Proof.
  intros svc git wsf config doc. unfold shouldPlaySound.
  repeat split.
  - intros ->. reflexivity.
  - intros -> ->. reflexivity.
  - intros ->. destruct (enabled config); simpl; [|reflexivity].
    apply checkGitAttribution_false.
Qed.

Lemma shouldPlaySound_gate_witness :
  shouldPlaySound (mkAttributionService None) throwingGit (fun _ => None)
    (getVSCodeConfig [("enabled", VBool false)]) (Some mainDoc)
  = Normal false
  /\ shouldPlaySound (mkAttributionService None) throwingGit (fun _ => None)
       (getVSCodeConfig [("authorName", VString "nobody")]) None
     = Normal true
  /\ shouldPlaySound (mkAttributionService None) throwingGit (fun _ => None)
       (getVSCodeConfig [("attributionMode", VString "git-only")])
       (Some mainDoc)
     = Normal false.
Proof.
  split; [|split].
  - apply (proj1 (shouldPlaySound_gate _ _ _ _ _)). reflexivity.
  - apply (proj1 (proj2 (shouldPlaySound_gate _ _ _ _ _))); reflexivity.
  - apply (proj2 (proj2 (shouldPlaySound_gate _ _ _ _ _))). reflexivity.
Defined.

(** ** Reading the settings *)

(** C9.  The enabled flag of the remove sound is read from the key
    'addSound.enabled', not from 'removeSound.enabled': with the add sound
    switched off and the remove sound switched on in the settings, the
    remove sound comes out disabled. *)
Theorem removeSound_enabled_reads_addSound_key :
  (forall c, se_enabled (removeSound (getVSCodeConfig c))
             = get_boolean c "addSound.enabled" true)
  /\ get_boolean removeOnly "removeSound.enabled" true = true
  /\ se_enabled (removeSound (getVSCodeConfig removeOnly)) = false.
Proof. repeat split. Qed.

(** ** Playback volume *)

(** When the role volume and the master volume are both present and not
    0, the volume posted is their product as fractions of 100. *)
Lemma playAdd_volume_product config w v :
  se_volume (addSound config) = Some v -> v <> 0 -> volume config <> 0 ->
  se_enabled (addSound config) = true ->
  isEmpty (addSoundPath (soundPlayer w)) = false ->
  audioWebviewPanel (soundPlayer w) = true ->
  audioLog (playAdd config w)
  = audioLog w
    ++ [(clock w,
         playAudioMsg Sound.add
           (inject_Z v / 100 * (inject_Z (volume config) / 100))%Q false)].
Proof.
  intros Hv Hv0 Hm0 Hon Hpath Hpanel.
  unfold playAdd, playAudio, or_default.
  rewrite Hpath, Hon, Hv, Hpanel.
  rewrite (proj2 (Z.eqb_neq v 0) Hv0), (proj2 (Z.eqb_neq _ 0) Hm0).
  reflexivity.
Qed.

(** C7.  A role volume of 0 is replaced by the role's constant (50 for the
    add sound, 100 for the active loop) and a master volume of 0 by 100, so
    neither silences the sound; an absent role volume falls back to that
    constant and not to the master volume (80 below). *)
Theorem playAdd_volume_fallbacks :
  audioLog (playAdd (getVSCodeConfig [("addSound.volume", VNumber 0)])
                    (activated [] [] 0))
    = [(0, playAudioMsg Sound.add (5000 # 10000) false)]
  /\ audioLog (playAdd (getVSCodeConfig [("volume", VNumber 0)])
                       (activated [] [] 0))
     = [(0, playAudioMsg Sound.add (5000 # 10000) false)]
  /\ audioLog (playAdd (mkConfig true "any" "Cline"
                          (mkSoundEntry true None) (mkSoundEntry true None)
                          (mkSoundEntry true None) (mkSoundEntry true None)
                          (mkSoundEntry true None) 80 1)
                       (activated [] [] 0))
     = [(0, playAudioMsg Sound.add (4000 # 10000) false)]
  /\ audioLog (playDiffActive
                 (getVSCodeConfig [("diffActiveSound.volume", VNumber 0)])
                 (activated [] [] 0))
     = [(0, playAudioMsg Sound.diffactive (10000 # 10000) true)].
Proof. split; [|split; [|split]]; vm_compute; reflexivity. Qed.

(** ** The open-tab counter *)

(** C3.  The extension is activated while a comparison tab is open (the
    counter starts at 0), and that tab is closed: the counter becomes -1.
    When a comparison tab opens next the counter is back at 0 with one
    tab open, and the loop does not start when the open cue ends. *)
Theorem close_decrements_below_zero :
  openDiffTabCount editing = 0
  /\ openDiffTabCount
       (dispatch (DidChangeTabs [] (mkTabChangeEvent [] [diffTab])) editing)
     = -1
  /\ openDiffTabCount closedThenReopened = 0
  /\ tabGroups (host closedThenReopened) = [[diffTab]]
  /\ playsOf Sound.diffactive (audioLog closedThenReopened) = 0%nat.
Proof. split; [|split; [|split; [|split]]]; vm_compute; reflexivity. Qed.

Lemma onDidChangeTabs_suppressed e w :
  isDuringConfigChange w = true -> onDidChangeTabs e w = w.
Proof.
  intros Hs. unfold onDidChangeTabs.
  destruct (isDisabled w); [reflexivity|].
  destruct (negb _); [reflexivity|].
  set (config := getVSCodeConfig _).
  assert (Hc : forall l, fold_left (tabClosed config) l w = w).
  { induction l as [|t l IH]; simpl; [reflexivity|].
    unfold tabClosed at 2. rewrite Hs.
    destruct (isDiffInput t); exact IH. }
  assert (Ho : forall l, fold_left (tabOpened config) l w = w).
  { induction l as [|t l IH]; simpl; [reflexivity|].
    unfold tabOpened at 2. rewrite Hs.
    destruct (isDiffInput t); exact IH. }
  rewrite Hc. apply Ho.
Qed.

(** C4, as stated, fails: while a configuration change is in progress a
    comparison tab that opens is not counted. *)
Lemma suppressed_open_not_counted :
  isDuringConfigChange suppressed = true
  /\ openDiffTabCount (openTab diffTab suppressed)
     <> openDiffTabCount suppressed + 1.
Proof. split; [reflexivity | discriminate]. Qed.

(** C4, amended.  While a configuration change is in progress, a tab event
    neither changes the counter nor plays, stops or defers any sound: the
    handler skips comparison tabs altogether. *)
Theorem suppressed_tab_event_ignored :
  forall e w,
    isDuringConfigChange w = true ->
    openDiffTabCount (onDidChangeTabs e w) = openDiffTabCount w
    /\ audioLog (onDidChangeTabs e w) = audioLog w
    /\ soundPlayer (onDidChangeTabs e w) = soundPlayer w
    /\ timers (onDidChangeTabs e w) = timers w.
Proof.
  intros e w Hs. rewrite (onDidChangeTabs_suppressed e w Hs). repeat split.
Qed.

Lemma suppressed_tab_event_ignored_witness :
  openDiffTabCount
    (onDidChangeTabs (mkTabChangeEvent [diffTab] [diffTab]) suppressed)
  = openDiffTabCount suppressed
  /\ audioLog
       (onDidChangeTabs (mkTabChangeEvent [diffTab] [diffTab]) suppressed)
     = audioLog suppressed
  /\ soundPlayer
       (onDidChangeTabs (mkTabChangeEvent [diffTab] [diffTab]) suppressed)
     = soundPlayer suppressed
  /\ timers
       (onDidChangeTabs (mkTabChangeEvent [diffTab] [diffTab]) suppressed)
     = timers suppressed.
Proof.
  apply (suppressed_tab_event_ignored
           (mkTabChangeEvent [diffTab] [diffTab]) suppressed).
  reflexivity.
Defined.

(** ** Disablement *)

Lemma onDidChangeTextDocument_not_enabled e w :
  enabled (getVSCodeConfig (configuration (host w))) = false ->
  onDidChangeTextDocument e w = w.
Proof.
  intros H. unfold onDidChangeTextDocument.
  destruct (isDisabled w); [reflexivity|].
  destruct (_ <? _); [reflexivity|].
  unfold shouldPlaySound. rewrite H. reflexivity.
Qed.

Lemma onDidChangeTabs_not_enabled e w :
  enabled (getVSCodeConfig (configuration (host w))) = false ->
  onDidChangeTabs e w = w.
Proof.
  intros H. unfold onDidChangeTabs.
  destruct (isDisabled w); [reflexivity|].
  rewrite H. reflexivity.
Qed.

(** C2.  With the master flag off in the settings, no sequence of
    document-change and tab-change events posts a play or a stop; nor does
    it set a timer or register a completion callback that could play
    later. *)
Theorem not_enabled_events_silent :
  forall evs w,
    enabled (getVSCodeConfig (configuration (host w))) = false ->
    Forall isEditOrTabEvent evs ->
    audioLog (handleAll evs w) = audioLog w
    /\ timers (handleAll evs w) = timers w
    /\ soundPlayer (handleAll evs w) = soundPlayer w.
Proof.
  unfold handleAll.
  induction evs as [|ev evs IH]; intros w Hoff Hall; simpl.
  - repeat split.
  - pose proof (Forall_inv Hall) as Hev.
    pose proof (Forall_inv_tail Hall) as Hrest.
    destruct ev as [e|groups e| | |s]; simpl in Hev; try contradiction; simpl.
    + rewrite (onDidChangeTextDocument_not_enabled e w Hoff).
      apply IH; assumption.
    + rewrite onDidChangeTabs_not_enabled by exact Hoff.
      apply (IH (set_host (set_tabGroups groups (host w)) w)); assumption.
Qed.

Lemma not_enabled_events_silent_witness :
  audioLog
    (handleAll
       [DidChangeTabs [[diffTab]] (mkTabChangeEvent [diffTab] []);
        DidChangeTextDocument (editOf [insertion; deletion]);
        DidChangeTabs [] (mkTabChangeEvent [] [diffTab])]
       (activated [("enabled", VBool false)] [] 10000))
  = []
  /\ timers
       (handleAll
          [DidChangeTabs [[diffTab]] (mkTabChangeEvent [diffTab] []);
           DidChangeTextDocument (editOf [insertion; deletion]);
           DidChangeTabs [] (mkTabChangeEvent [] [diffTab])]
          (activated [("enabled", VBool false)] [] 10000))
     = []
  /\ soundPlayer
       (handleAll
          [DidChangeTabs [[diffTab]] (mkTabChangeEvent [diffTab] []);
           DidChangeTextDocument (editOf [insertion; deletion]);
           DidChangeTabs [] (mkTabChangeEvent [] [diffTab])]
          (activated [("enabled", VBool false)] [] 10000))
     = loadedPlayer.
Proof.
  apply (not_enabled_events_silent
           [DidChangeTabs [[diffTab]] (mkTabChangeEvent [diffTab] []);
            DidChangeTextDocument (editOf [insertion; deletion]);
            DidChangeTabs [] (mkTabChangeEvent [] [diffTab])]
           (activated [("enabled", VBool false)] [] 10000)).
  - reflexivity.
  - repeat constructor.
Defined.

(** What the disable command itself posts: one stop per channel. *)
Lemma commandDisable_stops_all w :
  audioWebviewPanel (soundPlayer w) = true ->
  audioLog (commandDisable w)
  = audioLog w ++ [(clock w, stopAudioMsg Sound.diffactive);
                   (clock w, stopAudioMsg Sound.add);
                   (clock w, stopAudioMsg Sound.remove);
                   (clock w, stopAudioMsg Sound.diffopen);
                   (clock w, stopAudioMsg Sound.diffclose)].
Proof.
  intros Hp. unfold commandDisable, stopAll, stopAudio. simpl.
  rewrite Hp. simpl. rewrite Hp. simpl. rewrite Hp. simpl. rewrite Hp. simpl.
  rewrite Hp. simpl.
  repeat rewrite <- app_assoc. reflexivity.
Qed.

(** C5.  With the default settings (debounce 1 ms), an insertion in a
    compared document sets the debounce timer; the disable command runs
    before the timer is due; the timer then fires and the add sound is
    played although the extension is disabled: the timer's closure tests
    the "config change in progress" flag only.  The same with a debounce
    interval of 300 ms and the command 100 ms after the insertion. *)
Theorem pending_debounce_plays_after_disable :
  isDisabled disabledWithPendingTimer = true
  /\ isDuringConfigChange disabledWithPendingTimer = false
  /\ audioLog disabledWithPendingTimer
     = [(10000, stopAudioMsg Sound.diffactive);
        (10000, stopAudioMsg Sound.add);
        (10000, stopAudioMsg Sound.remove);
        (10000, stopAudioMsg Sound.diffopen);
        (10000, stopAudioMsg Sound.diffclose)]
  /\ audioLog (advance 10001 disabledWithPendingTimer)
     = audioLog disabledWithPendingTimer
       ++ [(10001, playAudioMsg Sound.add (5000 # 10000) false)]
  /\ isDisabled disabledWithPendingSlowTimer = true
  /\ audioLog (advance 10300 disabledWithPendingSlowTimer)
     = audioLog disabledWithPendingSlowTimer
       ++ [(10300, playAudioMsg Sound.add (5000 # 10000) false)].
Proof.
  split; [|split; [|split; [|split; [|split]]]]; vm_compute; reflexivity.
Qed.

(** ** Debouncing *)

Lemma classify_insertion c :
  isInsertion c = true -> classify c = Some Action.add.
Proof. unfold isInsertion, classify. intros ->. reflexivity. Qed.


Lemma lastAction_insertions cs :
  cs <> [] -> Forall (fun c => isInsertion c = true) cs ->
  lastAction cs = Some Action.add.
Proof.
  induction cs as [|c cs IH]; intros Hne Hall; [congruence|].
  pose proof (Forall_inv Hall) as Hc.
  pose proof (Forall_inv_tail Hall) as Hcs. simpl.
  destruct cs as [|c' cs'].
  - simpl. apply classify_insertion; assumption.
  - rewrite IH; [reflexivity | discriminate | assumption].
Qed.

Lemma lastDirection_insertions rest :
  Forall (fun n : Notification =>
            snd n <> [] /\ Forall (fun c => isInsertion c = true) (snd n))
         rest ->
  lastDirection Action.add rest = Action.add.
Proof.
  induction rest as [|n rest IH]; intros Hall; [reflexivity|].
  pose proof (Forall_inv Hall) as [Hne Hins].
  pose proof (Forall_inv_tail Hall) as Hrest. simpl.
  rewrite (lastAction_insertions (snd n) Hne Hins). apply IH; assumption.
Qed.

Lemma sorted_lastArrival_ge rest :
  forall t, Sorted Z.le (t :: map fst rest) -> t <= lastArrival t rest.
Proof.
  induction rest as [|n rest IH]; intros t Hs; simpl; [lia|].
  simpl in Hs. apply Sorted_inv in Hs. destruct Hs as [Hs Hhd].
  apply HdRel_inv in Hhd. specialize (IH (fst n) Hs). lia.
Qed.

Lemma sorted_inWindow rest :
  forall t hi,
    Sorted Z.le (t :: map fst rest) -> lastArrival t rest < hi ->
    inWindow t hi rest.
Proof.
  induction rest as [|n rest IH]; intros t hi Hs Hlast; simpl; [exact I|].
  simpl in Hs, Hlast. apply Sorted_inv in Hs. destruct Hs as [Hs Hhd].
  apply HdRel_inv in Hhd.
  pose proof (sorted_lastArrival_ge rest (fst n) Hs) as Hge.
  repeat split; [exact Hhd | lia | apply IH; assumption].
Qed.

Lemma timerDelay_pos d : 1 <= timerDelay d.
Proof.
  unfold timerDelay. destruct (Z.ltb_spec d 1); simpl; [lia |].
  destruct (d >? TIMEOUT_MAX); lia.
Qed.

Lemma timerDelay_in_range d : 1 <= d -> d <= TIMEOUT_MAX -> timerDelay d = d.
Proof.
  intros Hlo Hhi. unfold timerDelay.
  rewrite (proj2 (Z.ltb_ge d 1)) by exact Hlo.
  destruct (Z.gtb_spec d TIMEOUT_MAX); [lia | reflexivity].
Qed.

(** Scheduling when no timer is pending sets the one timer. *)
Lemma debouncedPlay_fresh config a w :
  timers w = [] ->
  debouncedPlay config a w
  = pendingWorld w (clock w) (nextTimerId w) (clock w + timerDelay (debounceMs config))
      a config.
Proof.
  intros Ht. destruct w; simpl in Ht; subst.
  unfold debouncedPlay. destruct timeout0; reflexivity.
Qed.

(** Scheduling while the timer is pending replaces it, whatever the two
    directions are. *)
Lemma debouncedPlay_pending config a base now h due a0 config0 :
  debouncedPlay config a (pendingWorld base now h due a0 config0)
  = pendingWorld base now (S h) (now + timerDelay (debounceMs config)) a config.
Proof.
  unfold debouncedPlay, pendingWorld, clearTimeout, setTimeout. simpl.
  rewrite Nat.eqb_refl. reflexivity.
Qed.

Lemma scheduleChanges_pending config changes :
  forall base now h due a0 config0,
  exists h',
    scheduleChanges config changes (pendingWorld base now h due a0 config0)
    = match lastAction changes with
      | Some a => pendingWorld base now h' (now + timerDelay (debounceMs config)) a config
      | None => pendingWorld base now h due a0 config0
      end.
Proof.
  unfold scheduleChanges.
  induction changes as [|c cs IH]; intros base now h due a0 config0; simpl.
  - exists h. reflexivity.
  - destruct (classify c) as [a1|].
    + rewrite debouncedPlay_pending.
      destruct (IH base now (S h) (now + timerDelay (debounceMs config)) a1 config)
        as [h' E].
      rewrite E. destruct (lastAction cs).
      * exists h'. reflexivity.
      * exists (S h). reflexivity.
    + destruct (IH base now h due a0 config0) as [h' E].
      rewrite E. destruct (lastAction cs).
      * exists h'. reflexivity.
      * exists h. reflexivity.
Qed.

Lemma scheduleChanges_fresh config changes a :
  forall w,
  timers w = [] ->
  lastAction changes = Some a ->
  exists h,
    scheduleChanges config changes w
    = pendingWorld w (clock w) h (clock w + timerDelay (debounceMs config)) a config.
Proof.
  unfold scheduleChanges.
  induction changes as [|c cs IH]; intros w Ht Hl; simpl in *.
  - discriminate.
  - destruct (classify c) as [a1|] eqn:Ec.
    + rewrite (debouncedPlay_fresh _ _ _ Ht).
      destruct (scheduleChanges_pending config cs w (clock w) (nextTimerId w)
                  (clock w + timerDelay (debounceMs config)) a1 config) as [h' E].
      unfold scheduleChanges in E. rewrite E.
      destruct (lastAction cs).
      * inversion Hl; subst. exists h'; reflexivity.
      * inversion Hl; subst. exists (nextTimerId w); reflexivity.
    + destruct (lastAction cs); [|discriminate].
      apply IH; assumption.
Qed.

Lemma advance_fresh t w :
  timers w = [] -> advance t w = set_clock (Z.max (clock w) t) w.
Proof.
  intros Ht. destruct w; simpl in Ht; subst. reflexivity.
Qed.

(** Before it is due, the pending timer stays. *)
Lemma advance_pending_early t base now h due a config :
  t < due ->
  advance t (pendingWorld base now h due a config)
  = pendingWorld base (Z.max now t) h due a config.
Proof.
  intros Hlt. unfold advance, pendingWorld, isDue. simpl.
  rewrite (proj2 (Z.leb_gt due t) Hlt). reflexivity.
Qed.

(** Once due, it fires at its deadline and posts its direction's play. *)
Lemma advance_pending_due T base now h due a config :
  now <= due -> due <= T ->
  isDuringConfigChange base = false ->
  audioWebviewPanel (soundPlayer base) = true ->
  playable a config base ->
  audioLog (advance T (pendingWorld base now h due a config))
  = audioLog base ++ [(due, debouncedMessage a config)].
Proof.
  intros Hnow Hdue Hst Hp Hplay.
  unfold advance, pendingWorld, isDue, fireTimer.
  cbn -[Z.max Z.leb Qmult Qdiv inject_Z].
  rewrite (proj2 (Z.leb_le due T) Hdue).
  cbn -[Z.max Z.leb Qmult Qdiv inject_Z].
  rewrite Hst, (Z.max_r _ _ Hnow).
  destruct a; destruct Hplay as [Hon Hpath]; rewrite Hon.
  - unfold playAdd, playAudio. cbn -[Z.max Z.leb Qmult Qdiv inject_Z].
    rewrite Hpath, Hon, Hp. reflexivity.
  - unfold playRemove, playAudio. cbn -[Z.max Z.leb Qmult Qdiv inject_Z].
    rewrite Hpath, Hon, Hp. reflexivity.
Qed.

Section Debounce.

Variable base : World.
Variable config : DiffSoundsConfig.
Variable doc : Uri.

Hypothesis settings_read :
  getVSCodeConfig (configuration (host base)) = config.
Hypothesis not_disabled : isDisabled base = false.
Hypothesis stable : isDuringConfigChange base = false.
Hypothesis master_on : enabled config = true.
Hypothesis mode_any : attributionMode config = "any".
Hypothesis in_diff :
  isDocumentInDiffEditor (tabGroups (host base)) doc = true.
Hypothesis panel : audioWebviewPanel (soundPlayer base) = true.

(** Past the suppression window, a notification for [doc] reaches the
    loop over its changes. *)
Lemma handler_schedules e w :
  sameSetting base w ->
  document e = doc ->
  lastConfigChangeTime base + UI_INTERACTION_SUPPRESSION_MS <= clock w ->
  onDidChangeTextDocument e w = scheduleChanges config (contentChanges e) w.
Proof.
  intros (Hl & Hd & Ha & Hh) Hdoc Hwin. unfold onDidChangeTextDocument.
  rewrite Hd, not_disabled, Hl, Hh, settings_read, Hdoc.
  rewrite (proj2 (Z.ltb_ge _ _)) by lia.
  unfold shouldPlaySound. rewrite master_on, mode_any. simpl.
  rewrite in_diff. reflexivity.
Qed.

Lemma first_notification_schedules t cs a :
  timers base = [] -> clock base <= t ->
  lastConfigChangeTime base + UI_INTERACTION_SUPPRESSION_MS <= t ->
  lastAction cs = Some a ->
  exists h,
    dispatch (DidChangeTextDocument (mkTextDocumentChangeEvent doc cs))
      (advance t base)
    = pendingWorld base t h (t + timerDelay (debounceMs config)) a config.
Proof.
  intros Ht Hle Hwin Hl.
  rewrite advance_fresh by exact Ht.
  rewrite Z.max_r by exact Hle. simpl.
  rewrite handler_schedules;
    [| repeat split | reflexivity | exact Hwin].
  simpl.
  destruct (scheduleChanges_fresh config cs a (set_clock t base) Ht Hl)
    as [h E].
  rewrite E. exists h. reflexivity.
Qed.

(** A notification that arrives before the pending timer is due replaces
    it. *)
Lemma notification_replaces_pending t cs a now h a0 :
  now <= t -> t < now + timerDelay (debounceMs config) ->
  lastConfigChangeTime base + UI_INTERACTION_SUPPRESSION_MS <= t ->
  lastAction cs = Some a ->
  exists h',
    dispatch (DidChangeTextDocument (mkTextDocumentChangeEvent doc cs))
      (advance t (pendingWorld base now h (now + timerDelay (debounceMs config)) a0 config))
    = pendingWorld base t h' (t + timerDelay (debounceMs config)) a config.
Proof.
  intros Hle Hlt Hwin Hl.
  rewrite advance_pending_early by exact Hlt.
  rewrite Z.max_r by exact Hle. simpl.
  rewrite handler_schedules;
    [| repeat split | reflexivity | exact Hwin].
  simpl.
  destruct (scheduleChanges_pending config cs base t h
              (now + timerDelay (debounceMs config)) a0 config) as [h' E].
  rewrite E, Hl. exists h'. reflexivity.
Qed.

(** Throughout a burst one timer is pending: the one set by the latest
    notification. *)
Lemma burst_pending :
  forall rest now h a0 hi,
    lastConfigChangeTime base + UI_INTERACTION_SUPPRESSION_MS <= now ->
    hi <= now + timerDelay (debounceMs config) ->
    inWindow now hi rest ->
    Forall (fun n : Notification => lastAction (snd n) <> None) rest ->
    exists h',
      run (arrivals doc rest)
          (pendingWorld base now h (now + timerDelay (debounceMs config)) a0 config)
      = pendingWorld base (lastArrival now rest) h'
          (lastArrival now rest + timerDelay (debounceMs config))
          (lastDirection a0 rest) config.
Proof.
  unfold run.
  induction rest as [|[t cs] rest IH]; intros now h a0 hi Hwin Hhi Hin Hall.
  - exists h. reflexivity.
  - destruct Hin as (Hle & Hlt & Hin). simpl in Hle, Hlt, Hin.
    pose proof (Forall_inv Hall) as Hcs. simpl in Hcs.
    pose proof (Forall_inv_tail Hall) as Hrest.
    destruct (lastAction cs) as [a|] eqn:Ea; [|congruence].
    destruct (notification_replaces_pending t cs a now h a0)
      as [h1 E1]; try lia; try assumption.
    cbn [arrivals map fold_left fst snd lastArrival lastDirection].
    rewrite E1, Ea.
    apply (IH t h1 a hi); try assumption; lia.
Qed.

(** A burst posts one play in all: that of the direction scheduled last,
    one debounce interval after the last notification. *)
Lemma burst_collapses t1 cs1 a1 rest T :
  timers base = [] ->
  clock base <= t1 ->
  lastConfigChangeTime base + UI_INTERACTION_SUPPRESSION_MS <= t1 ->
  lastAction cs1 = Some a1 ->
  Forall (fun n : Notification => lastAction (snd n) <> None) rest ->
  inWindow t1 (t1 + timerDelay (debounceMs config)) rest ->
  playable (lastDirection a1 rest) config base ->
  audioLog (advance T (run (arrivals doc ((t1, cs1) :: rest)) base))
  = audioLog base
    ++ (if T <? lastArrival t1 rest + timerDelay (debounceMs config) then []
        else [(lastArrival t1 rest + timerDelay (debounceMs config),
               debouncedMessage (lastDirection a1 rest) config)]).
Proof.
  intros Ht Hclock Hwin Ha1 Hall Hin Hplay.
  pose proof (timerDelay_pos (debounceMs config)) as HD.
  destruct (first_notification_schedules t1 cs1 a1 Ht Hclock Hwin Ha1)
    as [h E].
  unfold run in *. cbn [arrivals map fold_left fst snd]. rewrite E.
  destruct (burst_pending rest t1 h a1 (t1 + timerDelay (debounceMs config)))
    as [h' E']; try assumption; try lia.
  unfold run in E'. unfold arrivals in E'. rewrite E'.
  destruct (T <? lastArrival t1 rest + timerDelay (debounceMs config)) eqn:ET.
  - apply Z.ltb_lt in ET. rewrite advance_pending_early by exact ET.
    rewrite app_nil_r. reflexivity.
  - apply Z.ltb_ge in ET.
    apply advance_pending_due; try assumption. lia.
Qed.

End Debounce.

(** C6, as stated, fails for a debounce interval beyond the range of the
    host's timers: with an interval of 3000000000 ms the timers are due
    after 1 ms, and two insertions 100 ms apart are both played, 1 ms
    after each arrived. *)
Lemma burst_beyond_timer_range_not_collapsed :
  audioLog (advance 10500 (run (arrivals mainDoc twoInsertions) editingOverflow))
  = [(10001, playAudioMsg Sound.add (5000 # 10000) false);
     (10101, playAudioMsg Sound.add (5000 # 10000) false)]
  /\ playsOf Sound.add
       (audioLog
          (advance (10100 + 3000000000)
             (run (arrivals mainDoc twoInsertions) editingOverflow)))
     <> 1%nat.
Proof.
  split; [vm_compute; reflexivity |].
  intros H. vm_compute in H. discriminate.
Qed.

(** C6, amended.  For a debounce interval within the range of the host's
    timers (at most [TIMEOUT_MAX]), a burst of notifications, each made of
    insertions into the same compared document, that all arrive within a
    window shorter than the interval posts exactly one message: the add
    play, at the arrival time of the last notification plus the interval.
    Before that time nothing is posted. *)
Theorem debounce_collapses_insertion_burst :
  forall (w : World) (config : DiffSoundsConfig) (doc : Uri)
         (t1 : Z) (cs1 : list TextDocumentContentChangeEvent)
         (rest : list Notification) (T : Z),
    getVSCodeConfig (configuration (host w)) = config ->
    enabled config = true ->
    attributionMode config = "any" ->
    se_enabled (addSound config) = true ->
    isDisabled w = false ->
    isDuringConfigChange w = false ->
    lastConfigChangeTime w + UI_INTERACTION_SUPPRESSION_MS <= t1 ->
    isDocumentInDiffEditor (tabGroups (host w)) doc = true ->
    audioWebviewPanel (soundPlayer w) = true ->
    isEmpty (addSoundPath (soundPlayer w)) = false ->
    timers w = [] ->
    clock w <= t1 ->
    Forall (fun n : Notification =>
              snd n <> [] /\ Forall (fun c => isInsertion c = true) (snd n))
           ((t1, cs1) :: rest) ->
    Sorted Z.le (t1 :: map fst rest) ->
    lastArrival t1 rest - t1 < debounceMs config ->
    debounceMs config <= TIMEOUT_MAX ->
    audioLog (advance T (run (arrivals doc ((t1, cs1) :: rest)) w))
    = audioLog w
      ++ (if T <? lastArrival t1 rest + debounceMs config then []
          else [(lastArrival t1 rest + debounceMs config,
                 playAudioMsg Sound.add
                   (linearVolume (se_volume (addSound config)) 50
                      (volume config))
                   false)]).
Proof.
  intros w config doc t1 cs1 rest T Hcfg Hen Hany Hadd Hdis Hst Hwin Hdiff
         Hpanel Hpath Htimers Hclock Hins Hsorted Hshort Hmax.
  pose proof (Forall_inv Hins) as [Hne1 Hins1]. simpl in Hne1, Hins1.
  pose proof (Forall_inv_tail Hins) as Hrest.
  pose proof (sorted_lastArrival_ge rest t1 Hsorted) as Hge.
  pose proof (lastDirection_insertions rest Hrest) as Hdir.
  assert (Hdelay : timerDelay (debounceMs config) = debounceMs config)
    by (apply timerDelay_in_range; lia).
  rewrite (burst_collapses w config doc Hcfg Hdis Hst Hen Hany Hdiff Hpanel
             t1 cs1 Action.add rest T).
  - rewrite Hdir, Hdelay. reflexivity.
  - exact Htimers.
  - exact Hclock.
  - exact Hwin.
  - apply lastAction_insertions; assumption.
  - revert Hrest. apply Forall_impl.
    intros n [Hne Hn]. rewrite (lastAction_insertions (snd n) Hne Hn).
    discriminate.
  - apply sorted_inWindow; [exact Hsorted | lia].
  - rewrite Hdir. split; assumption.
Qed.

(** Side conditions on concrete data. *)
Ltac closed_side :=
  repeat first [ reflexivity | lia | discriminate | constructor ].

Lemma debounce_collapses_insertion_burst_witness :
  audioLog (advance 10549 (run (arrivals mainDoc insertionBurst) editingSlow))
  = []
  /\ audioLog (advance 11000 (run (arrivals mainDoc insertionBurst) editingSlow))
     = [(10550, playAudioMsg Sound.add (5000 # 10000) false)].
Proof.
  split.
  - apply (debounce_collapses_insertion_burst
             editingSlow (getVSCodeConfig (configuration (host editingSlow)))
             mainDoc 10000 [insertion]
             [(10100, [insertion; insertion]); (10250, [insertion])] 10549);
      closed_side.
  - apply (debounce_collapses_insertion_burst
             editingSlow (getVSCodeConfig (configuration (host editingSlow)))
             mainDoc 10000 [insertion]
             [(10100, [insertion; insertion]); (10250, [insertion])] 11000);
      closed_side.
Defined.




(** ** The lifecycle of comparison tabs *)

Section Lifecycle.

Variable w : World.
Variable config : DiffSoundsConfig.
Variable tab : Tab.

Hypothesis settings_read : getVSCodeConfig (configuration (host w)) = config.
Hypothesis master_on : enabled config = true.
Hypothesis open_on : se_enabled (diffOpenSound config) = true.
Hypothesis active_on : se_enabled (diffActiveSound config) = true.
Hypothesis close_on : se_enabled (diffCloseSound config) = true.
Hypothesis not_disabled : isDisabled w = false.
Hypothesis stable : isDuringConfigChange w = false.
Hypothesis none_open : openDiffTabCount w = 0.
Hypothesis panel : audioWebviewPanel (soundPlayer w) = true.
Hypothesis open_loaded : isEmpty (diffOpenSoundPath (soundPlayer w)) = false.
Hypothesis active_loaded :
  isEmpty (diffActiveSoundPath (soundPlayer w)) = false.
Hypothesis close_loaded : isEmpty (diffCloseSoundPath (soundPlayer w)) = false.
Hypothesis no_callbacks :
  map_get Sound.diffopen (soundCompletionCallbacks (soundPlayer w)) = None.
Hypothesis is_diff : isDiffInput tab = true.




End Lifecycle.




(** * Further properties *)

(** ** Classification of a content change *)

(** X1.  For a content change that replaces a range of non-negative
    length, the direction is decided by the net length alone: add when
    the inserted text is longer than the replaced range, remove when it
    is shorter, nothing when both have the same length (an empty change
    or a replacement of equal length). *)
Theorem classify_by_net_length :
  forall c,
    0 <= rangeLength c ->
    classify c
    = match textLength c ?= rangeLength c with
      | Gt => Some Action.add
      | Lt => Some Action.remove
      | Eq => None
      end.
Proof.
  intros c Hr. unfold classify.
  assert (Ht : 0 <= textLength c) by (unfold textLength; lia).
  destruct (Z.eqb_spec (rangeLength c) 0) as [R0|R0];
    destruct (Z.eqb_spec (textLength c) 0) as [T0|T0];
    destruct (Z.gtb_spec (rangeLength c) 0) as [Rp|Rp];
    destruct (Z.gtb_spec (textLength c) 0) as [Tp|Tp];
    destruct (Z.gtb_spec (textLength c) (rangeLength c)) as [G|G];
    destruct (Z.ltb_spec (textLength c) (rangeLength c)) as [L|L];
    destruct (Z.compare_spec (textLength c) (rangeLength c)) as [E|E|E];
    simpl; try reflexivity; lia.
Qed.

Lemma classify_by_net_length_witness :
  classify (mkChange 3 "hello") = Some Action.add
  /\ classify (mkChange 5 "hello") = None
  /\ classify (mkChange 7 "hello") = Some Action.remove.
Proof.
  split; [|split].
  - rewrite (classify_by_net_length (mkChange 3 "hello")); [reflexivity|simpl; lia].
  - rewrite (classify_by_net_length (mkChange 5 "hello")); [reflexivity|simpl; lia].
  - rewrite (classify_by_net_length (mkChange 7 "hello")); [reflexivity|simpl; lia].
Defined.

(** ** What the handlers leave unchanged *)

Lemma keepsTimers_refl w : keepsTimers w w.
Proof. split; reflexivity. Qed.

Lemma keepsTimers_trans w1 w2 w3 :
  keepsTimers w1 w2 -> keepsTimers w2 w3 -> keepsTimers w1 w3.
Proof. intros [A B] [C D]. split; congruence. Qed.

Lemma mute_refl w : mute w w.
Proof. split; intros; reflexivity. Qed.

Lemma mute_trans w1 w2 w3 : mute w1 w2 -> mute w2 w3 -> mute w1 w3.
Proof.
  intros [A B] [C D]. split; [congruence|].
  intros H. rewrite D by congruence. apply B, H.
Qed.

Lemma fold_left_preorder {A : Type} (R : World -> World -> Prop)
    (f : World -> A -> World) :
  (forall w, R w w) ->
  (forall w1 w2 w3, R w1 w2 -> R w2 w3 -> R w1 w3) ->
  (forall w x, R w (f w x)) ->
  forall l w, R w (fold_left f l w).
Proof.
  intros Hrefl Htrans Hstep. induction l as [|x l IH]; intros w; simpl.
  - apply Hrefl.
  - eapply Htrans; [apply Hstep | apply IH].
Qed.

Lemma playAudio_frame s v l w :
  keepsTimers w (playAudio s v l w) /\ mute w (playAudio s v l w).
Proof.
  unfold keepsTimers, mute, playAudio.
  destruct (audioWebviewPanel (soundPlayer w)) eqn:E; simpl;
    repeat split; try reflexivity; try assumption; try discriminate.
Qed.

Lemma stopAudio_frame s w :
  keepsTimers w (stopAudio s w) /\ mute w (stopAudio s w).
Proof.
  unfold keepsTimers, mute, stopAudio.
  destruct (audioWebviewPanel (soundPlayer w)) eqn:E; simpl;
    repeat split; try reflexivity; try assumption; try discriminate.
Qed.

Lemma frame_refl w : keepsTimers w w /\ mute w w.
Proof. split; [apply keepsTimers_refl | apply mute_refl]. Qed.

Lemma frame_trans w1 w2 w3 :
  keepsTimers w1 w2 /\ mute w1 w2 ->
  keepsTimers w2 w3 /\ mute w2 w3 ->
  keepsTimers w1 w3 /\ mute w1 w3.
Proof.
  intros [A B] [C D].
  split; [eapply keepsTimers_trans | eapply mute_trans]; eassumption.
Qed.

Lemma playAdd_frame c w : keepsTimers w (playAdd c w) /\ mute w (playAdd c w).
Proof.
  unfold playAdd. destruct (_ || _); [apply frame_refl | apply playAudio_frame].
Qed.

Lemma playRemove_frame c w :
  keepsTimers w (playRemove c w) /\ mute w (playRemove c w).
Proof.
  unfold playRemove.
  destruct (_ || _); [apply frame_refl | apply playAudio_frame].
Qed.

Lemma playDiffOpen_frame c w :
  keepsTimers w (playDiffOpen c w) /\ mute w (playDiffOpen c w).
Proof.
  unfold playDiffOpen.
  destruct (_ || _); [apply frame_refl | apply playAudio_frame].
Qed.

Lemma playDiffActive_frame c w :
  keepsTimers w (playDiffActive c w) /\ mute w (playDiffActive c w).
Proof.
  unfold playDiffActive.
  destruct (_ || _); [apply frame_refl | apply playAudio_frame].
Qed.

Lemma playDiffClose_frame c w :
  keepsTimers w (playDiffClose c w) /\ mute w (playDiffClose c w).
Proof.
  unfold playDiffClose.
  destruct (_ || _); [apply frame_refl|].
  eapply frame_trans; [apply stopAudio_frame | apply playAudio_frame].
Qed.

Lemma set_openDiffTabCount_frame n w :
  keepsTimers w (set_openDiffTabCount n w) /\ mute w (set_openDiffTabCount n w).
Proof. repeat split. Qed.

Lemma onSoundCompleted_frame s cb w :
  keepsTimers w (onSoundCompleted s cb w) /\ mute w (onSoundCompleted s cb w).
Proof. repeat split. Qed.

Lemma tabClosed_frame c w t :
  keepsTimers w (tabClosed c w t) /\ mute w (tabClosed c w t).
Proof.
  unfold tabClosed.
  destruct (isDiffInput t); [|apply frame_refl].
  destruct (isDuringConfigChange w); [apply frame_refl|].
  destruct (_ && _).
  - eapply frame_trans;
      [apply set_openDiffTabCount_frame | apply playDiffClose_frame].
  - apply set_openDiffTabCount_frame.
Qed.

Lemma tabOpened_frame c w t :
  keepsTimers w (tabOpened c w t) /\ mute w (tabOpened c w t).
Proof.
  unfold tabOpened.
  destruct (isDiffInput t); [|apply frame_refl].
  destruct (isDuringConfigChange w); [apply frame_refl|].
  destruct (se_enabled (diffOpenSound c)).
  - eapply frame_trans; [apply set_openDiffTabCount_frame|].
    eapply frame_trans; [apply onSoundCompleted_frame|].
    apply playDiffOpen_frame.
  - destruct (se_enabled (diffActiveSound c)).
    + eapply frame_trans;
        [apply set_openDiffTabCount_frame | apply playDiffActive_frame].
    + apply set_openDiffTabCount_frame.
Qed.

Lemma onDidChangeTabs_frame e w :
  keepsTimers w (onDidChangeTabs e w) /\ mute w (onDidChangeTabs e w).
Proof.
  unfold onDidChangeTabs.
  destruct (isDisabled w); [apply frame_refl|].
  destruct (negb _); [apply frame_refl|].
  set (c := getVSCodeConfig _).
  eapply frame_trans.
  - apply (fold_left_preorder (fun a b => keepsTimers a b /\ mute a b)
             (tabClosed c));
      [apply frame_refl | apply frame_trans | apply tabClosed_frame].
  - apply (fold_left_preorder (fun a b => keepsTimers a b /\ mute a b)
             (tabOpened c));
      [apply frame_refl | apply frame_trans | apply tabOpened_frame].
Qed.

Lemma stopAll_frame w : keepsTimers w (stopAll w) /\ mute w (stopAll w).
Proof.
  unfold stopAll.
  repeat (eapply frame_trans; [|apply stopAudio_frame]).
  apply frame_refl.
Qed.

Lemma commandEnable_frame w :
  keepsTimers w (commandEnable w) /\ mute w (commandEnable w).
Proof.
  unfold commandEnable.
  eapply frame_trans; [|apply stopAll_frame]. repeat split.
Qed.

Lemma commandDisable_frame w :
  keepsTimers w (commandDisable w) /\ mute w (commandDisable w).
Proof.
  unfold commandDisable.
  eapply frame_trans; [|repeat split].
  eapply frame_trans; [|apply stopAll_frame]. repeat split.
Qed.

Lemma runCompletionCallback_frame w cb :
  keepsTimers w (runCompletionCallback cb w)
  /\ mute w (runCompletionCallback cb w).
Proof.
  destruct cb as [c]. simpl.
  destruct (_ && _); [apply playDiffActive_frame | apply frame_refl].
Qed.

Lemma onAudioEnded_frame s w :
  keepsTimers w (onAudioEnded s w) /\ mute w (onAudioEnded s w).
Proof.
  unfold onAudioEnded.
  destruct (map_get s _) as [cbs|]; [|apply frame_refl].
  eapply frame_trans; [|repeat split].
  apply (fold_left_preorder (fun a b => keepsTimers a b /\ mute a b)
           (fun acc cb => runCompletionCallback cb acc));
    [apply frame_refl | apply frame_trans|].
  intros; apply runCompletionCallback_frame.
Qed.

Lemma runTimerCallback_frame cb w :
  keepsTimers w (runTimerCallback cb w) /\ mute w (runTimerCallback cb w).
Proof.
  destruct cb as [a c]. simpl.
  destruct (isDuringConfigChange w); [apply frame_refl|].
  destruct a.
  - destruct (se_enabled _); [apply playAdd_frame | apply frame_refl].
  - destruct (se_enabled _); [apply playRemove_frame | apply frame_refl].
Qed.

Lemma fireTimer_frame w tm :
  keepsTimers w (fireTimer w tm) /\ mute w (fireTimer w tm).
Proof.
  unfold fireTimer.
  eapply frame_trans; [|apply runTimerCallback_frame]. repeat split.
Qed.

Lemma debouncedPlay_mute c a w : mute w (debouncedPlay c a w).
Proof.
  unfold debouncedPlay. destruct (timeout w); repeat split.
Qed.

Lemma onDidChangeTextDocument_mute e w : mute w (onDidChangeTextDocument e w).
Proof.
  unfold onDidChangeTextDocument.
  destruct (isDisabled w); [apply mute_refl|].
  destruct (_ <? _); [apply mute_refl|].
  destruct (shouldPlaySound _ _ _ _ _) as [[|]|]; try apply mute_refl.
  destruct (negb _); [apply mute_refl|].
  unfold scheduleChanges.
  match goal with
  | |- mute _ (fold_left ?f _ _) => apply (fold_left_preorder mute f)
  end; [apply mute_refl | apply mute_trans|].
  intros w' ch. destruct (classify ch);
    [apply debouncedPlay_mute | apply mute_refl].
Qed.

Lemma advance_mute t w : mute w (advance t w).
Proof.
  unfold advance.
  eapply mute_trans; [|repeat split].
  eapply mute_trans; [|].
  2: { apply (fold_left_preorder mute fireTimer);
         [apply mute_refl | apply mute_trans|].
       intros w' tm. apply fireTimer_frame. }
  repeat split.
Qed.

Lemma dispatch_mute ev w : mute w (dispatch ev w).
Proof.
  destruct ev as [e|groups e| | |s]; simpl.
  - apply onDidChangeTextDocument_mute.
  - eapply mute_trans; [|apply onDidChangeTabs_frame]. repeat split.
  - apply commandEnable_frame.
  - apply commandDisable_frame.
  - apply onAudioEnded_frame.
Qed.

Lemma run_mute evs : forall w, mute w (run evs w).
Proof.
  unfold run.
  apply (fold_left_preorder mute
           (fun acc te => dispatch (snd te) (advance (fst te) acc)));
    [apply mute_refl | apply mute_trans|].
  intros w te. eapply mute_trans; [apply advance_mute | apply dispatch_mute].
Qed.

(** X3.  While the audio panel does not exist no message is ever posted,
    whatever events arrive and whatever timers fire. *)
Theorem no_panel_no_message :
  forall evs T w,
    audioWebviewPanel (soundPlayer w) = false ->
    audioLog (advance T (run evs w)) = audioLog w.
Proof.
  intros evs T w Hp.
  destruct (mute_trans _ _ _ (run_mute evs w) (advance_mute T (run evs w)))
    as [_ H].
  apply H, Hp.
Qed.

(** ** The debounce slot *)

Lemma singleSlot_keeps w w' : keepsTimers w w' -> singleSlot w -> singleSlot w'.
Proof.
  intros [Ht Ho] [H|[tm [H1 H2]]].
  - left. congruence.
  - right. exists tm. split; congruence.
Qed.

Lemma debouncedPlay_singleSlot c a w :
  singleSlot w -> singleSlot (debouncedPlay c a w).
Proof.
  intros [H|[tm [H1 H2]]]; right.
  - rewrite (debouncedPlay_fresh c a w H).
    eexists. split; reflexivity.
  - unfold debouncedPlay, clearTimeout, setTimeout.
    rewrite H2. simpl. rewrite H1. simpl. rewrite Nat.eqb_refl. simpl.
    eexists. split; reflexivity.
Qed.

Lemma scheduleChanges_singleSlot c l :
  forall w, singleSlot w -> singleSlot (scheduleChanges c l w).
Proof.
  unfold scheduleChanges.
  induction l as [|ch l IH]; intros w H; simpl; [exact H|].
  apply IH. destruct (classify ch); [apply debouncedPlay_singleSlot|]; exact H.
Qed.

Lemma onDidChangeTextDocument_singleSlot e w :
  singleSlot w -> singleSlot (onDidChangeTextDocument e w).
Proof.
  intros H. unfold onDidChangeTextDocument.
  destruct (isDisabled w); [exact H|].
  destruct (_ <? _); [exact H|].
  destruct (shouldPlaySound _ _ _ _ _) as [[|]|]; try exact H.
  destruct (negb _); [exact H|].
  apply scheduleChanges_singleSlot, H.
Qed.

Lemma fold_fireTimer_keeps l :
  forall w, keepsTimers w (fold_left fireTimer l w).
Proof.
  apply (fold_left_preorder keepsTimers fireTimer);
    [apply keepsTimers_refl | apply keepsTimers_trans|].
  intros w tm. apply fireTimer_frame.
Qed.

Lemma advance_singleSlot t w : singleSlot w -> singleSlot (advance t w).
Proof.
  intros H. unfold advance.
  match goal with
  | |- singleSlot (set_clock _ (fold_left fireTimer ?l ?w1)) =>
      destruct (fold_fireTimer_keeps l w1) as [Ht Ho];
      assert (S1 : singleSlot w1)
  end.
  { destruct H as [H|[tm [H1 H2]]].
    - left. simpl. rewrite H. reflexivity.
    - simpl. rewrite H1. simpl. destruct (isDue t tm); simpl.
      + left. reflexivity.
      + right. exists tm. split; [reflexivity | exact H2]. }
  eapply singleSlot_keeps; [|eapply singleSlot_keeps;
                               [split; eassumption | exact S1]].
  repeat split.
Qed.

Lemma dispatch_singleSlot ev w : singleSlot w -> singleSlot (dispatch ev w).
Proof.
  intros H. destruct ev as [e|groups e| | |s]; simpl.
  - apply onDidChangeTextDocument_singleSlot, H.
  - eapply singleSlot_keeps; [apply onDidChangeTabs_frame|].
    eapply singleSlot_keeps; [|exact H]. repeat split.
  - eapply singleSlot_keeps; [apply commandEnable_frame | exact H].
  - eapply singleSlot_keeps; [apply commandDisable_frame | exact H].
  - eapply singleSlot_keeps; [apply onAudioEnded_frame | exact H].
Qed.

(** X2.  At most one debounce timer is ever pending: the single slot is
    kept by every event and by every firing. *)
Theorem debounce_timer_single_slot :
  forall evs T w,
    singleSlot w ->
    singleSlot (run evs w)
    /\ singleSlot (advance T (run evs w))
    /\ (List.length (timers (advance T (run evs w))) <= 1)%nat.
Proof.
  intros evs T w H.
  assert (R : singleSlot (run evs w)).
  { unfold run. revert w H.
    induction evs as [|te evs IH]; intros w H; simpl; [exact H|].
    apply IH, dispatch_singleSlot, advance_singleSlot, H. }
  split; [exact R|].
  pose proof (advance_singleSlot T _ R) as A.
  split; [exact A|].
  destruct A as [A|[tm [A _]]]; rewrite A; simpl; lia.
Qed.

Lemma debounce_timer_single_slot_witness :
  (List.length (timers (advance 10200 (run mixedRun editingSlow))) <= 1)%nat.
Proof.
  apply (debounce_timer_single_slot mixedRun 10200 editingSlow).
  left. reflexivity.
Defined.

Lemma no_panel_no_message_witness :
  audioLog (advance 20000 (run mixedRun withoutPanel)) = [].
Proof.
  apply (no_panel_no_message mixedRun 20000 withoutPanel).
  reflexivity.
Defined.

(** ** Disablement by the command *)

Lemma onDidChangeTextDocument_disabled e w :
  isDisabled w = true -> onDidChangeTextDocument e w = w.
Proof. intros H. unfold onDidChangeTextDocument. rewrite H. reflexivity. Qed.

Lemma onDidChangeTabs_disabled e w :
  isDisabled w = true -> onDidChangeTabs e w = w.
Proof. intros H. unfold onDidChangeTabs. rewrite H. reflexivity. Qed.

(** X4.  After the disable command, whatever the settings say, no sequence of
    document-change and tab-change events posts a message, sets a timer or
    registers a callback; comparison tabs that open or close meanwhile are
    not counted. *)
Theorem disabled_events_ignored :
  forall evs w,
    Forall isEditOrTabEvent evs ->
    isDisabled (handleAll evs (commandDisable w)) = true
    /\ audioLog (handleAll evs (commandDisable w)) = audioLog (commandDisable w)
    /\ timers (handleAll evs (commandDisable w)) = timers w
    /\ soundPlayer (handleAll evs (commandDisable w)) = soundPlayer w
    /\ openDiffTabCount (handleAll evs (commandDisable w)) = openDiffTabCount w.
Proof.
  intros evs w Hall.
  assert (G : forall v,
             isDisabled v = true ->
             isDisabled (handleAll evs v) = true
             /\ audioLog (handleAll evs v) = audioLog v
             /\ timers (handleAll evs v) = timers v
             /\ soundPlayer (handleAll evs v) = soundPlayer v
             /\ openDiffTabCount (handleAll evs v) = openDiffTabCount v).
  { unfold handleAll. induction evs as [|ev evs IH]; intros v Hd; simpl.
    - repeat split. exact Hd.
    - pose proof (Forall_inv Hall) as Hev.
      pose proof (Forall_inv_tail Hall) as Hrest.
      destruct ev as [e|groups e| | |s]; simpl in Hev; try contradiction;
        simpl.
      + rewrite (onDidChangeTextDocument_disabled e v Hd).
        apply IH; assumption.
      + rewrite onDidChangeTabs_disabled by exact Hd.
        apply (IH Hrest (set_host (set_tabGroups groups (host v)) v)).
        exact Hd. }
  destruct (G (commandDisable w)) as (A & B & C & D & E).
  { unfold commandDisable, stopAll, stopAudio. simpl.
    repeat (destruct (audioWebviewPanel _); simpl); reflexivity. }
  destruct (commandDisable_frame w) as [[Kt _] _].
  repeat split; try assumption.
  - rewrite C. exact Kt.
  - rewrite D. unfold commandDisable, stopAll, stopAudio. simpl.
    repeat (destruct (audioWebviewPanel _); simpl); reflexivity.
  - rewrite E. unfold commandDisable, stopAll, stopAudio. simpl.
    repeat (destruct (audioWebviewPanel _); simpl); reflexivity.
Qed.

Lemma disabled_events_ignored_witness :
  openDiffTabCount
    (handleAll
       [DidChangeTabs [[diffTab]] (mkTabChangeEvent [diffTab] []);
        DidChangeTextDocument (editOf [insertion])]
       (commandDisable editing))
  = 0.
Proof.
  apply (disabled_events_ignored
           [DidChangeTabs [[diffTab]] (mkTabChangeEvent [diffTab] []);
            DidChangeTextDocument (editOf [insertion])]
           editing).
  repeat constructor.
Defined.

(** ** The suppression window *)

Lemma suppressed_run burst doc w :
  timers w = [] ->
  Forall (fun n : Notification =>
            fst n < lastConfigChangeTime w + UI_INTERACTION_SUPPRESSION_MS)
         burst ->
  forall c,
    c < lastConfigChangeTime w + UI_INTERACTION_SUPPRESSION_MS ->
    exists c',
      run (arrivals doc burst) (set_clock c w) = set_clock c' w
      /\ c' < lastConfigChangeTime w + UI_INTERACTION_SUPPRESSION_MS.
Proof.
  intros Ht. unfold run.
  induction burst as [|n burst IH]; intros Hall c Hc; simpl.
  - exists c. split; [reflexivity | exact Hc].
  - pose proof (Forall_inv Hall) as Hn. cbv beta in Hn.
    pose proof (Forall_inv_tail Hall) as Hrest.
    rewrite advance_fresh by exact Ht. simpl.
    assert (E : onDidChangeTextDocument
                  (mkTextDocumentChangeEvent doc (snd n))
                  (set_clock (Z.max c (fst n)) w)
                = set_clock (Z.max c (fst n)) w).
    { unfold onDidChangeTextDocument. simpl.
      destruct (isDisabled w); [reflexivity|].
      unfold UI_INTERACTION_SUPPRESSION_MS in *.
      rewrite (proj2 (Z.ltb_lt _ _)) by lia. reflexivity. }
    replace (set_clock (Z.max c (fst n)) (set_clock c w))
      with (set_clock (Z.max c (fst n)) w) by reflexivity.
    rewrite E. apply IH; [exact Hrest | lia].
Qed.

(** X5.  Document changes that arrive less than 2000 ms after the last
    configuration change are dropped: they play nothing, then or later. *)
Theorem edits_in_suppression_window_dropped :
  forall (w : World) (doc : Uri) (burst : list Notification) (T : Z),
    timers w = [] ->
    clock w < lastConfigChangeTime w + UI_INTERACTION_SUPPRESSION_MS ->
    Forall (fun n : Notification =>
              fst n < lastConfigChangeTime w + UI_INTERACTION_SUPPRESSION_MS)
           burst ->
    audioLog (advance T (run (arrivals doc burst) w)) = audioLog w
    /\ timers (advance T (run (arrivals doc burst) w)) = [].
Proof.
  intros w doc burst T Ht Hc Hall.
  destruct (suppressed_run burst doc w Ht Hall (clock w) Hc) as [c' [E _]].
  replace (set_clock (clock w) w) with w in E by (destruct w; reflexivity).
  rewrite E. rewrite advance_fresh by exact Ht. simpl.
  split; [reflexivity | exact Ht].
Qed.

Lemma edits_in_suppression_window_dropped_witness :
  audioLog
    (advance 30000
       (run (arrivals mainDoc [(10500, [insertion]); (11999, [deletion])])
            (suppressing editing)))
  = [].
Proof.
  apply (edits_in_suppression_window_dropped
           (suppressing editing) mainDoc
           [(10500, [insertion]); (11999, [deletion])] 30000).
  - reflexivity.
  - simpl. unfold UI_INTERACTION_SUPPRESSION_MS. lia.
  - repeat constructor.
Defined.

(** ** Completion callbacks *)

Lemma map_get_delete k m : map_get k (map_delete k m) = None.
Proof.
  unfold map_delete. induction m as [|[k' v] m IH]; simpl; [reflexivity|].
  destruct (Sound.eqb k' k) eqn:E; simpl; [exact IH|].
  rewrite E. exact IH.
Qed.

Lemma Sound_eqb_eq a b : Sound.eqb a b = true <-> a = b.
Proof.
  destruct a, b; simpl; split; intro H; try reflexivity; discriminate H.
Qed.

Lemma map_get_delete_other k k' m :
  k' <> k -> map_get k' (map_delete k m) = map_get k' m.
Proof.
  intros Hne. unfold map_delete.
  induction m as [|[k0 v] m IH]; simpl; [reflexivity|].
  destruct (Sound.eqb k0 k) eqn:E; simpl.
  - apply Sound_eqb_eq in E. subst k0.
    destruct (Sound.eqb k k') eqn:E'; [|exact IH].
    apply Sound_eqb_eq in E'. congruence.
  - destruct (Sound.eqb k0 k'); [reflexivity | exact IH].
Qed.

Lemma runCompletionCallback_player cb w :
  soundPlayer (runCompletionCallback cb w) = soundPlayer w.
Proof.
  destruct cb as [c]. simpl. destruct (_ && _); [|reflexivity].
  unfold playDiffActive. destruct (_ || _); [reflexivity|].
  unfold playAudio. destruct (audioWebviewPanel _); reflexivity.
Qed.

Lemma fold_callbacks_player cbs :
  forall w,
    soundPlayer (fold_left (fun acc cb => runCompletionCallback cb acc) cbs w)
    = soundPlayer w.
Proof.
  induction cbs as [|cb cbs IH]; intros w; simpl; [reflexivity|].
  rewrite IH. apply runCompletionCallback_player.
Qed.

(** X6.  Completion callbacks are one-shot: once the end of a sound has been
    notified nothing remains registered for it, so a second notification
    changes nothing; callbacks registered for other sounds stay. *)
Theorem completion_callbacks_fire_once :
  forall s w,
    map_get s (soundCompletionCallbacks (soundPlayer (onAudioEnded s w)))
    = None
    /\ onAudioEnded s (onAudioEnded s w) = onAudioEnded s w
    /\ (forall s', s' <> s ->
          map_get s' (soundCompletionCallbacks (soundPlayer (onAudioEnded s w)))
          = map_get s' (soundCompletionCallbacks (soundPlayer w))).
Proof.
  intros s w.
  assert (G : map_get s
                (soundCompletionCallbacks (soundPlayer (onAudioEnded s w)))
              = None).
  { unfold onAudioEnded.
    destruct (map_get s (soundCompletionCallbacks (soundPlayer w)))
      as [cbs|] eqn:E; [|exact E].
    simpl. apply map_get_delete. }
  split; [exact G|]. split.
  - unfold onAudioEnded at 1. rewrite G. reflexivity.
  - intros s' Hne. unfold onAudioEnded.
    destruct (map_get s (soundCompletionCallbacks (soundPlayer w)))
      as [cbs|] eqn:E; [|reflexivity].
    simpl. rewrite map_get_delete_other by exact Hne.
    rewrite fold_callbacks_player. reflexivity.
Qed.

(** ** Tab events whose cue cannot play *)

Lemma playDiffClose_unplayable c w :
  se_enabled (diffCloseSound c) = false
  \/ isEmpty (diffCloseSoundPath (soundPlayer w)) = true ->
  playDiffClose c w = w.
Proof.
  intros [H|H]; unfold playDiffClose; rewrite H; simpl;
    [rewrite orb_true_r|]; reflexivity.
Qed.

(** X7.  When the close cue is disabled, or its file is not resolved, a tab
    event that only closes tabs posts nothing: closing the last comparison
    tab does not stop the active loop. *)
Theorem close_without_cue_keeps_loop :
  forall (w : World) (tabs : list Tab),
    se_enabled (diffCloseSound (getVSCodeConfig (configuration (host w))))
    = false
    \/ isEmpty (diffCloseSoundPath (soundPlayer w)) = true ->
    audioLog (onDidChangeTabs (mkTabChangeEvent [] tabs) w) = audioLog w.
Proof.
  intros w tabs H. unfold onDidChangeTabs.
  destruct (isDisabled w); [reflexivity|].
  destruct (negb _); [reflexivity|].
  set (c := getVSCodeConfig _) in *. simpl.
  assert (G : forall l v,
             soundPlayer v = soundPlayer w ->
             audioLog (fold_left (tabClosed c) l v) = audioLog v).
  { induction l as [|t l IH]; intros v Hv; simpl; [reflexivity|].
    assert (S : soundPlayer (tabClosed c v t) = soundPlayer w
                /\ audioLog (tabClosed c v t) = audioLog v).
    { unfold tabClosed.
      destruct (isDiffInput t); [|split; [exact Hv | reflexivity]].
      destruct (isDuringConfigChange v); [split; [exact Hv | reflexivity]|].
      destruct (_ && _); [|split; [exact Hv | reflexivity]].
      rewrite playDiffClose_unplayable;
        [split; [exact Hv | reflexivity]|].
      simpl. rewrite Hv. exact H. }
    destruct S as [S1 S2]. rewrite IH by exact S1. exact S2. }
  apply G. reflexivity.
Qed.

Lemma close_without_cue_keeps_loop_witness :
  audioLog
    (onDidChangeTabs (mkTabChangeEvent [] [diffTab])
       (onAudioEnded Sound.diffopen
          (openTab diffTab
             (activated [("diffCloseSound.enabled", VBool false)] [] 10000))))
  = [(10000, playAudioMsg Sound.diffopen (10000 # 10000) false);
     (10000, playAudioMsg Sound.diffactive (10000 # 10000) true)].
Proof.
  rewrite (close_without_cue_keeps_loop
             (onAudioEnded Sound.diffopen
                (openTab diffTab
                   (activated [("diffCloseSound.enabled", VBool false)] []
                      10000)))
             [diffTab]).
  - reflexivity.
  - left. reflexivity.
Defined.

Lemma playDiffOpen_unloaded c w :
  isEmpty (diffOpenSoundPath (soundPlayer w)) = true -> playDiffOpen c w = w.
Proof. intros H. unfold playDiffOpen. rewrite H. reflexivity. Qed.

(** X8.  When the open cue is enabled but its file is not resolved, a tab event
    that only opens tabs posts nothing: the start of the active loop waits
    on a cue that is never played. *)
Theorem unloaded_open_cue_defers_loop :
  forall (w : World) (tabs : list Tab),
    se_enabled (diffOpenSound (getVSCodeConfig (configuration (host w))))
    = true ->
    isEmpty (diffOpenSoundPath (soundPlayer w)) = true ->
    audioLog (onDidChangeTabs (mkTabChangeEvent tabs []) w) = audioLog w.
Proof.
  intros w tabs Hon Hpath. unfold onDidChangeTabs.
  destruct (isDisabled w); [reflexivity|].
  destruct (negb _); [reflexivity|].
  set (c := getVSCodeConfig _) in *. simpl.
  assert (G : forall l v,
             diffOpenSoundPath (soundPlayer v) = diffOpenSoundPath (soundPlayer w) ->
             audioLog (fold_left (tabOpened c) l v) = audioLog v).
  { induction l as [|t l IH]; intros v Hv; simpl; [reflexivity|].
    assert (S : diffOpenSoundPath (soundPlayer (tabOpened c v t))
                = diffOpenSoundPath (soundPlayer w)
                /\ audioLog (tabOpened c v t) = audioLog v).
    { unfold tabOpened.
      destruct (isDiffInput t); [|split; [exact Hv | reflexivity]].
      destruct (isDuringConfigChange v); [split; [exact Hv | reflexivity]|].
      rewrite Hon.
      rewrite playDiffOpen_unloaded;
        [split; [exact Hv | reflexivity]|].
      simpl. rewrite Hv. exact Hpath. }
    destruct S as [S1 S2]. rewrite IH by exact S1. exact S2. }
  apply G. reflexivity.
Qed.

Lemma unloaded_open_cue_defers_loop_witness :
  audioLog
    (onDidChangeTabs (mkTabChangeEvent [diffTab; diffTab] [])
       (set_soundPlayer
          (mkPlayer true "a.wav" "r.wav" EmptyString "l.wav" "c.wav" [])
          editing))
  = [].
Proof.
  apply (unloaded_open_cue_defers_loop
           (set_soundPlayer
              (mkPlayer true "a.wav" "r.wav" EmptyString "l.wav" "c.wav" [])
              editing)
           [diffTab; diffTab]); reflexivity.
Defined.

(** ** The attribution gate, other modes *)

Lemma strict_eq_true x s : strict_eq x s = true <-> x = Some s.
Proof.
  destruct x as [y|]; simpl.
  - rewrite String.eqb_eq. split; congruence.
  - split; discriminate.
Qed.

Lemma participantMatches_true author p :
  participantMatches author p = true
  <-> exists u, userInfo p = Some u
                /\ (displayName u = Some author \/ userName u = Some author).
Proof.
  unfold participantMatches. destruct (userInfo p) as [u|].
  - rewrite orb_true_iff, !strict_eq_true. split.
    + intros H. exists u. split; [reflexivity | exact H].
    + intros [u' [E H]]. inversion E; subst. exact H.
  - split; [discriminate | intros [u [E _]]; discriminate].
Qed.

(** X9.  In mode 'live-only' an enabled configuration lets an edit play exactly
    when the Live Share API is present, has a session whose participants
    can be read, and one of them has the configured author as display name
    or user name; the gate never throws. *)
Theorem live_only_matches_participant :
  forall svc git wsf config doc,
    enabled config = true ->
    attributionMode config = "live-only" ->
    exists b,
      shouldPlaySound svc git wsf config doc = Normal b
      /\ (b = true <-> authorPresent svc (authorName config)).
Proof.
  intros svc git wsf config doc Hen Hmode.
  unfold shouldPlaySound, checkLiveAttribution, authorPresent.
  rewrite Hen, Hmode. simpl.
  destruct (liveShareApi svc) as [api|] eqn:Ea.
  - destruct (session api) as [s|] eqn:Es; simpl.
    + destruct (participants s) as [ps|] eqn:Ep; simpl.
      * eexists. split; [reflexivity|].
        rewrite existsb_exists. split.
        -- intros [p [Hin Hm]]. apply participantMatches_true in Hm.
           destruct Hm as [u [Hu Hn]].
           exists api, s, ps, p, u.
           repeat split; try assumption; reflexivity.
        -- intros (api' & s' & ps' & p & u & A & B & C & D & E & F).
           inversion A; subst api'. rewrite Es in B. inversion B; subst s'.
           rewrite Ep in C. inversion C; subst ps'.
           exists p. split; [exact D|].
           apply participantMatches_true. exists u. split; assumption.
      * exists false. split; [reflexivity|]. split; [discriminate|].
        intros (api' & s' & ps' & p & u & A & B & C & _).
        inversion A; subst api'. rewrite Es in B. inversion B; subst s'.
        rewrite Ep in C. discriminate.
    + exists false. split; [reflexivity|]. split; [discriminate|].
      intros (api' & s' & ps' & p & u & A & B & _).
      inversion A; subst api'. rewrite Es in B. discriminate.
  - exists false. split; [reflexivity|]. split; [discriminate|].
    intros (api' & s' & ps' & p & u & A & _). discriminate.
Qed.

Lemma live_only_matches_participant_witness :
  shouldPlaySound sessionWithCline None (fun _ => None)
    (getVSCodeConfig [("attributionMode", VString "live-only")])
    (Some mainDoc)
  = Normal true.
Proof.
  destruct (live_only_matches_participant sessionWithCline None
              (fun _ => None)
              (getVSCodeConfig [("attributionMode", VString "live-only")])
              (Some mainDoc) eq_refl eq_refl) as [b [E [_ H]]].
  rewrite E. f_equal. apply H.
  unfold authorPresent, sessionWithCline. simpl.
  do 5 eexists. repeat split; try reflexivity.
  - right. left. reflexivity.
  - reflexivity.
  - left. reflexivity.
Defined.

(** X10.  The gate never throws, whatever the mode and whatever the Live Share
    and git APIs do; a mode it does not know lets nothing play. *)
Theorem shouldPlaySound_never_throws :
  forall svc git wsf config doc,
    (exists b, shouldPlaySound svc git wsf config doc = Normal b)
    /\ (attributionMode config <> "any" ->
        attributionMode config <> "live-only" ->
        attributionMode config <> "git-only" ->
        shouldPlaySound svc git wsf config doc = Normal false).
Proof.
  intros svc git wsf config doc. unfold shouldPlaySound. split.
  - destruct (negb (enabled config)); [eexists; reflexivity|].
    destruct (attributionMode config =? "any")%string;
      [eexists; reflexivity|].
    destruct (attributionMode config =? "live-only")%string.
    + unfold checkLiveAttribution.
      destruct (liveShareApi svc) as [api|]; [|eexists; reflexivity].
      destruct (session api) as [s|]; simpl; [|eexists; reflexivity].
      destruct (participants s); simpl; eexists; reflexivity.
    + destruct (attributionMode config =? "git-only")%string;
        [|eexists; reflexivity].
      rewrite checkGitAttribution_false. eexists; reflexivity.
  - intros H1 H2 H3.
    apply String.eqb_neq in H1, H2, H3. rewrite H1, H2, H3.
    destruct (negb (enabled config)); reflexivity.
Qed.

Lemma shouldPlaySound_never_throws_witness :
  shouldPlaySound
    (mkAttributionService (Some (mkLiveShareApi (Some (mkSession Throw)))))
    throwingGit (fun _ => None)
    (getVSCodeConfig [("attributionMode", VString "everyone")])
    (Some mainDoc)
  = Normal false.
Proof.
  apply (proj2 (shouldPlaySound_never_throws _ _ _ _ _)); discriminate.
Defined.

(** ** Bursts of mixed directions *)

Lemma lastDirection_first cs1 a1 rest t1 :
  lastAction cs1 = Some a1 ->
  lastDirection Action.add ((t1, cs1) :: rest) = lastDirection a1 rest.
Proof. intros H. simpl. rewrite H. reflexivity. Qed.

(** X11.  Let [d] be the delay the host's timer uses for the debounce
    interval.  When the sound of the direction scheduled last can play, a
    burst of notifications of any directions, all within a window shorter
    than [d], posts exactly one message: the play of the direction
    scheduled last, [d] after the last notification. *)
Theorem burst_plays_last_direction :
  forall (w : World) (config : DiffSoundsConfig) (doc : Uri)
         (t1 : Z) (cs1 : list TextDocumentContentChangeEvent)
         (rest : list Notification) (T : Z),
    getVSCodeConfig (configuration (host w)) = config ->
    enabled config = true ->
    attributionMode config = "any" ->
    isDisabled w = false ->
    isDuringConfigChange w = false ->
    lastConfigChangeTime w + UI_INTERACTION_SUPPRESSION_MS <= t1 ->
    isDocumentInDiffEditor (tabGroups (host w)) doc = true ->
    audioWebviewPanel (soundPlayer w) = true ->
    timers w = [] ->
    clock w <= t1 ->
    Forall (fun n : Notification => lastAction (snd n) <> None)
           ((t1, cs1) :: rest) ->
    Sorted Z.le (t1 :: map fst rest) ->
    lastArrival t1 rest - t1 < timerDelay (debounceMs config) ->
    playable (lastDirection Action.add ((t1, cs1) :: rest)) config w ->
    audioLog (advance T (run (arrivals doc ((t1, cs1) :: rest)) w))
    = audioLog w
      ++ (if T <? lastArrival t1 rest + timerDelay (debounceMs config) then []
          else [(lastArrival t1 rest + timerDelay (debounceMs config),
                 debouncedMessage
                   (lastDirection Action.add ((t1, cs1) :: rest)) config)]).
Proof.
  intros w config doc t1 cs1 rest T Hcfg Hen Hany Hdis Hst Hwin Hdiff
         Hpanel Htimers Hclock Hall Hsorted Hshort Hplay.
  pose proof (Forall_inv Hall) as H1. simpl in H1.
  pose proof (Forall_inv_tail Hall) as Hrest.
  destruct (lastAction cs1) as [a1|] eqn:Ea; [|congruence].
  pose proof (sorted_lastArrival_ge rest t1 Hsorted) as Hge.
  rewrite (lastDirection_first cs1 a1 rest t1 Ea) in *.
  apply (burst_collapses w config doc Hcfg Hdis Hst Hen Hany Hdiff Hpanel
           t1 cs1 a1 rest T); try assumption.
  apply sorted_inWindow; [exact Hsorted | lia].
Qed.

Lemma burst_plays_last_direction_witness :
  audioLog
    (advance 20000
       (run (arrivals mainDoc
               [(10000, [deletion]); (10100, [insertion; deletion]);
                (10200, [deletion; insertion])])
            editingSlow))
  = [(10500, playAudioMsg Sound.add (5000 # 10000) false)].
Proof.
  apply (burst_plays_last_direction
           editingSlow (getVSCodeConfig (configuration (host editingSlow)))
           mainDoc 10000 [deletion]
           [(10100, [insertion; deletion]); (10200, [deletion; insertion])]
           20000);
    closed_side.
Defined.

(** ** Edits further apart than the debounce interval *)

Lemma advance_pending_fires T base now h due a config :
  now <= due -> due <= T ->
  isDuringConfigChange base = false ->
  audioWebviewPanel (soundPlayer base) = true ->
  playable a config base ->
  advance T (pendingWorld base now h due a config)
  = firedWorld base T h (due, debouncedMessage a config).
Proof.
  intros Hnow Hdue Hst Hp Hplay.
  unfold advance, pendingWorld, isDue, fireTimer, firedWorld.
  cbn -[Z.max Z.leb Qmult Qdiv inject_Z].
  rewrite (proj2 (Z.leb_le due T) Hdue).
  cbn -[Z.max Z.leb Qmult Qdiv inject_Z].
  rewrite Hst, (Z.max_r _ _ Hnow).
  destruct a; destruct Hplay as [Hon Hpath]; rewrite Hon.
  - unfold playAdd, playAudio. cbn -[Z.max Z.leb Qmult Qdiv inject_Z].
    rewrite Hpath, Hon, Hp. cbn -[Z.max Z.leb Qmult Qdiv inject_Z].
    rewrite (Z.max_r _ _ Hdue). reflexivity.
  - unfold playRemove, playAudio. cbn -[Z.max Z.leb Qmult Qdiv inject_Z].
    rewrite Hpath, Hon, Hp. cbn -[Z.max Z.leb Qmult Qdiv inject_Z].
    rewrite (Z.max_r _ _ Hdue). reflexivity.
Qed.

Lemma spaced_run config doc rest :
  forall base now h a0 T,
    getVSCodeConfig (configuration (host base)) = config ->
    enabled config = true ->
    attributionMode config = "any" ->
    isDisabled base = false ->
    isDuringConfigChange base = false ->
    isDocumentInDiffEditor (tabGroups (host base)) doc = true ->
    audioWebviewPanel (soundPlayer base) = true ->
    playable Action.add config base ->
    playable Action.remove config base ->
    lastConfigChangeTime base + UI_INTERACTION_SUPPRESSION_MS <= now ->
    Forall (fun n : Notification => lastAction (snd n) <> None) rest ->
    spaced (timerDelay (debounceMs config)) now rest ->
    lastArrival now rest + timerDelay (debounceMs config) <= T ->
    audioLog
      (advance T
         (run (arrivals doc rest)
              (pendingWorld base now h (now + timerDelay (debounceMs config)) a0 config)))
    = audioLog base
      ++ (now + timerDelay (debounceMs config), debouncedMessage a0 config)
         :: map (ownPlay config) rest.
Proof.
  induction rest as [|[t cs] rest IH];
    intros base now h a0 T Hcfg Hen Hany Hdis Hst Hdiff Hpanel Hadd Hrem
           Hwin Hall Hsp HT;
    pose proof (timerDelay_pos (debounceMs config)) as HD.
  - simpl in *. apply advance_pending_due; try assumption; try lia.
    destruct a0; assumption.
  - destruct Hsp as [Hgap Hsp]. simpl in Hgap, Hsp, HT.
    pose proof (Forall_inv Hall) as Hcs. simpl in Hcs.
    pose proof (Forall_inv_tail Hall) as Hrest.
    destruct (lastAction cs) as [a|] eqn:Ea; [|congruence].
    unfold run. cbn [arrivals map fold_left fst snd].
    rewrite advance_pending_fires; try assumption; try lia;
      [|destruct a0; assumption].
    cbn [dispatch].
    rewrite (handler_schedules base config doc Hcfg Hdis Hen Hany Hdiff);
      [| repeat split | reflexivity | simpl; lia].
    cbn [contentChanges].
    destruct (scheduleChanges_fresh config cs a
                (firedWorld base t h
                   (now + timerDelay (debounceMs config), debouncedMessage a0 config))
                eq_refl Ea) as [h' E].
    rewrite E.
    change (pendingWorld
              (firedWorld base t h
                 (now + timerDelay (debounceMs config), debouncedMessage a0 config))
              (clock (firedWorld base t h
                 (now + timerDelay (debounceMs config), debouncedMessage a0 config)))
              h'
              (clock (firedWorld base t h
                 (now + timerDelay (debounceMs config), debouncedMessage a0 config))
               + timerDelay (debounceMs config))
              a config)
      with (pendingWorld
              (set_audioLog
                 (audioLog base
                  ++ [(now + timerDelay (debounceMs config), debouncedMessage a0 config)])
                 base)
              t h' (t + timerDelay (debounceMs config)) a config).
    etransitivity.
    { apply (IH (set_audioLog
                   (audioLog base
                    ++ [(now + timerDelay (debounceMs config), debouncedMessage a0 config)])
                   base)
                t h' a T); try assumption; try (simpl; lia). }
    cbn [audioLog set_audioLog map]. rewrite <- app_assoc.
    unfold ownPlay, directionOf. cbn [fst snd]. rewrite Ea. reflexivity.
Qed.

(** X12.  Let [d] be the delay the host's timer uses for the debounce
    interval.  When both sounds can play, notifications that arrive more
    than [d] apart are not collapsed: each gets its own play, of the
    direction it scheduled last, [d] after it arrived. *)
Theorem spaced_edits_each_play :
  forall (w : World) (config : DiffSoundsConfig) (doc : Uri)
         (t1 : Z) (cs1 : list TextDocumentContentChangeEvent)
         (rest : list Notification) (T : Z),
    getVSCodeConfig (configuration (host w)) = config ->
    enabled config = true ->
    attributionMode config = "any" ->
    isDisabled w = false ->
    isDuringConfigChange w = false ->
    lastConfigChangeTime w + UI_INTERACTION_SUPPRESSION_MS <= t1 ->
    isDocumentInDiffEditor (tabGroups (host w)) doc = true ->
    audioWebviewPanel (soundPlayer w) = true ->
    playable Action.add config w ->
    playable Action.remove config w ->
    timers w = [] ->
    clock w <= t1 ->
    Forall (fun n : Notification => lastAction (snd n) <> None)
           ((t1, cs1) :: rest) ->
    spaced (timerDelay (debounceMs config)) t1 rest ->
    lastArrival t1 rest + timerDelay (debounceMs config) <= T ->
    audioLog (advance T (run (arrivals doc ((t1, cs1) :: rest)) w))
    = audioLog w ++ map (ownPlay config) ((t1, cs1) :: rest).
Proof.
  intros w config doc t1 cs1 rest T Hcfg Hen Hany Hdis Hst Hwin Hdiff Hpanel
         Hadd Hrem Htimers Hclock Hall Hsp HT.
  pose proof (Forall_inv Hall) as H1. simpl in H1.
  pose proof (Forall_inv_tail Hall) as Hrest.
  destruct (lastAction cs1) as [a1|] eqn:Ea; [|congruence].
  destruct (first_notification_schedules w config doc Hcfg Hdis Hen Hany
              Hdiff t1 cs1 a1 Htimers Hclock Hwin Ea) as [h E].
  unfold run. cbn [arrivals map fold_left fst snd]. rewrite E.
  etransitivity.
  { apply (spaced_run config doc rest w t1 h a1 T); assumption. }
  unfold ownPlay at 2, directionOf. cbn [fst snd]. rewrite Ea. reflexivity.
Qed.

Lemma spaced_edits_each_play_witness :
  audioLog
    (advance 20000
       (run (arrivals mainDoc
               [(10000, [insertion]); (10301, [deletion]); (11000, [insertion])])
            editingSlow))
  = [(10300, playAudioMsg Sound.add (5000 # 10000) false);
     (10601, playAudioMsg Sound.remove (5000 # 10000) false);
     (11300, playAudioMsg Sound.add (5000 # 10000) false)].
Proof.
  apply (spaced_edits_each_play
           editingSlow (getVSCodeConfig (configuration (host editingSlow)))
           mainDoc 10000 [insertion]
           [(10301, [deletion]); (11000, [insertion])] 20000);
    closed_side.
Defined.

(** ** Several comparison tabs opening *)


Section ManyOpens.

Variable w : World.
Variable config : DiffSoundsConfig.

Hypothesis open_on : se_enabled (diffOpenSound config) = true.
Hypothesis active_on : se_enabled (diffActiveSound config) = true.
Hypothesis master_on : enabled config = true.
Hypothesis not_disabled : isDisabled w = false.
Hypothesis stable : isDuringConfigChange w = false.
Hypothesis panel : audioWebviewPanel (soundPlayer w) = true.
Hypothesis open_loaded : isEmpty (diffOpenSoundPath (soundPlayer w)) = false.
Hypothesis active_loaded :
  isEmpty (diffActiveSoundPath (soundPlayer w)) = false.
Hypothesis no_callbacks :
  map_get Sound.diffopen (soundCompletionCallbacks (soundPlayer w)) = None.




End ManyOpens.



(** ** The commands *)

Lemma stopAudio_panel s w :
  audioWebviewPanel (soundPlayer w) = true ->
  stopAudio s w = set_audioLog (audioLog w ++ [(clock w, stopAudioMsg s)]) w.
Proof. intros Hp. unfold stopAudio. rewrite Hp. reflexivity. Qed.

Lemma stopAll_panel w :
  audioWebviewPanel (soundPlayer w) = true ->
  stopAll w = set_audioLog (audioLog w ++ fiveStops (clock w)) w.
Proof.
  intros Hp. unfold stopAll.
  rewrite (stopAudio_panel Sound.diffactive w Hp).
  rewrite (stopAudio_panel Sound.add) by exact Hp.
  rewrite (stopAudio_panel Sound.remove) by exact Hp.
  rewrite (stopAudio_panel Sound.diffopen) by exact Hp.
  rewrite (stopAudio_panel Sound.diffclose) by exact Hp.
  destruct w. unfold set_audioLog, fiveStops. simpl.
  rewrite <- !app_assoc. reflexivity.
Qed.

(** X14.  Disabling and then enabling again posts ten stops and no play: the
    active loop is not resumed although comparison tabs are still counted
    as open; the counter, the timers and the registered callbacks are as
    before. *)
Theorem reenabling_does_not_resume_loop :
  forall w,
    audioWebviewPanel (soundPlayer w) = true ->
    audioLog (commandEnable (commandDisable w))
    = audioLog w ++ fiveStops (clock w) ++ fiveStops (clock w)
    /\ isDisabled (commandEnable (commandDisable w)) = false
    /\ wasDiffActivePlaying (commandEnable (commandDisable w))
       = (openDiffTabCount w >? 0)
    /\ openDiffTabCount (commandEnable (commandDisable w)) = openDiffTabCount w
    /\ timers (commandEnable (commandDisable w)) = timers w
    /\ soundPlayer (commandEnable (commandDisable w)) = soundPlayer w.
Proof.
  intros w Hp.
  unfold commandEnable, commandDisable.
  rewrite (stopAll_panel (set_isDisabled true w)) by exact Hp.
  rewrite stopAll_panel by exact Hp.
  destruct w. simpl.
  rewrite <- app_assoc. repeat split.
Qed.

Lemma reenabling_does_not_resume_loop_witness :
  playsOf Sound.diffactive
    (audioLog
       (commandEnable
          (commandDisable (onAudioEnded Sound.diffopen (openTab diffTab editing)))))
  = 1%nat
  /\ openDiffTabCount
       (commandEnable
          (commandDisable (onAudioEnded Sound.diffopen (openTab diffTab editing))))
     = 1.
Proof.
  destruct (reenabling_does_not_resume_loop
              (onAudioEnded Sound.diffopen (openTab diffTab editing))
              eq_refl) as (L & _ & _ & C & _).
  rewrite L, C. split; reflexivity.
Defined.

(** ** The test buttons *)

(** X15.  A test button plays its sound exactly once and not looped, whatever
    the state: the master flag, the role's enabled flag, the disable
    command and a configuration change in progress are all ignored, no
    stop is posted, and nothing but the log changes.  The volume is the
    one the message carries, else the role's volume in the settings. *)
Theorem test_sound_plays_once :
  forall (s : Sound.id) (messageVolume : option Z) (w : World),
    audioWebviewPanel (soundPlayer w) = true ->
    isEmpty (rolePath s (soundPlayer w)) = false ->
    onTestSound s messageVolume w
    = set_audioLog
        (audioLog w
         ++ [(clock w,
              playAudioMsg s
                (linearVolume
                   (match messageVolume with
                    | Some v => Some v
                    | None =>
                        se_volume
                          (roleEntry s
                             (getVSCodeConfig (configuration (host w))))
                    end)
                   (roleConstant s)
                   (volume (getVSCodeConfig (configuration (host w)))))
                false)])
        w.
Proof.
  intros s messageVolume w Hp Hpath.
  destruct s; cbn [rolePath] in Hpath;
    unfold onTestSound, playAdd, playRemove, playDiffOpen, testDiffActive,
           testDiffClose, playAudio;
    rewrite Hpath, Hp; reflexivity.
Qed.

Lemma test_sound_plays_once_witness :
  audioLog (onTestSound Sound.diffactive (Some 30) allOff)
  = [(10000, playAudioMsg Sound.diffactive (3000 # 10000) false)].
Proof.
  rewrite (test_sound_plays_once Sound.diffactive (Some 30) allOff);
    reflexivity.
Defined.

(** ** The sound detector *)

Lemma isAudioExtension_format (ext : string) :
  isAudioExtension ext = true -> In (substring1 ext) audioFormats.
Proof.
  unfold isAudioExtension, audioExtensions. intros H.
  apply existsb_exists in H. destruct H as (x & Hin & Heq).
  apply String.eqb_eq in Heq. subst x.
  repeat (destruct Hin as [<- | Hin]; [simpl; tauto |]).
  destruct Hin.
Qed.

Section DetectorFacts.

Variable join : list string -> string.
Variable extensionPath : string.

Lemma scanUserFiles_keeps (files : list DirEntry) :
  forall acc f, In f acc -> In f (fst (scanUserFiles join extensionPath files acc)).
Proof.
  induction files as [| file rest IH]; intros acc f Hin; simpl.
  - exact Hin.
  - destruct (isDirectory file) as [[|]|]; simpl; auto.
    destruct (isAudioExtension _); auto.
    destruct (guessSoundType _); auto.
    apply IH. apply in_or_app. left. exact Hin.
Qed.

Lemma scanDefaultFiles_keeps (files : list DirEntry) :
  forall acc f, In f acc -> In f (fst (scanDefaultFiles join extensionPath files acc)).
Proof.
  induction files as [| file rest IH]; intros acc f Hin; simpl.
  - exact Hin.
  - destruct (isDirectory file) as [[|]|]; simpl; auto.
    destruct (isAudioExtension _); auto.
    destruct (guessSoundType _); auto.
    destruct (negb _); auto.
    apply IH. apply in_or_app. left. exact Hin.
Qed.

Lemma scanUserFiles_origin (files : list DirEntry) :
  forall acc f,
    In f (fst (scanUserFiles join extensionPath files acc)) ->
    In f acc
    \/ (isUserSound f = true /\ isDefaultSound f = false
        /\ exists e, In e files
             /\ describes join (soundsPath join extensionPath) e f).
Proof.
  induction files as [| file rest IH]; intros acc f Hin; simpl in Hin.
  - left. exact Hin.
  - assert (Hrest : forall acc',
               In f (fst (scanUserFiles join extensionPath rest acc')) ->
               In f acc'
               \/ (isUserSound f = true /\ isDefaultSound f = false
                   /\ exists e, In e (file :: rest)
                        /\ describes join (soundsPath join extensionPath) e f)).
    { intros acc' H. destruct (IH acc' f H) as [H1 | (Hu & Hd & e & He & Hdesc)].
      - left. exact H1.
      - right. split; [exact Hu|]. split; [exact Hd|].
        exists e. split; [right; exact He | exact Hdesc]. }
    destruct (isDirectory file) as [[|]|] eqn:Edir; simpl in Hin; auto.
    destruct (isAudioExtension _) eqn:Eext; auto.
    destruct (guessSoundType _) as [type|] eqn:Etype; auto.
    destruct (Hrest _ Hin) as [H1 | H1]; [| right; exact H1].
    apply in_app_or in H1. destruct H1 as [H1 | [H1 | []]]; [left; exact H1 |].
    right. subst f. simpl. split; [reflexivity|]. split; [reflexivity|].
    exists file. split; [left; reflexivity|].
    unfold describes; simpl.
    split; [exact Edir|]. split; [reflexivity|]. split; [reflexivity|].
    split; [reflexivity|]. split; [apply isAudioExtension_format; exact Eext|].
    exact Etype.
Qed.

Lemma scanDefaultFiles_origin (files : list DirEntry) :
  forall acc f,
    In f (fst (scanDefaultFiles join extensionPath files acc)) ->
    In f acc
    \/ (isUserSound f = false /\ isDefaultSound f = true
        /\ (exists e, In e files
              /\ describes join (defaultsPath join extensionPath) e f)
        /\ forall g, In g acc -> isUserSound g = true ->
                     soundType g <> soundType f).
Proof.
  induction files as [| file rest IH]; intros acc f Hin; simpl in Hin.
  - left. exact Hin.
  - assert (Hrest : forall acc',
               (forall g, In g acc -> In g acc') ->
               In f (fst (scanDefaultFiles join extensionPath rest acc')) ->
               In f acc'
               \/ (isUserSound f = false /\ isDefaultSound f = true
                   /\ (exists e, In e (file :: rest)
                         /\ describes join (defaultsPath join extensionPath) e f)
                   /\ forall g, In g acc -> isUserSound g = true ->
                                soundType g <> soundType f)).
    { intros acc' Hsub H.
      destruct (IH acc' f H) as [H1 | (Hu & Hd & (e & He & Hdesc) & Hno)].
      - left. exact H1.
      - right. split; [exact Hu|]. split; [exact Hd|]. split.
        + exists e. split; [right; exact He | exact Hdesc].
        + intros g Hg. apply Hno. apply Hsub. exact Hg. }
    destruct (isDirectory file) as [[|]|] eqn:Edir; simpl in Hin; auto.
    destruct (isAudioExtension _) eqn:Eext; auto.
    destruct (guessSoundType _) as [type|] eqn:Etype; auto.
    destruct (existsb _ acc) eqn:Euser; simpl in Hin; auto.
    destruct (Hrest (acc ++ _) (fun g Hg => in_or_app _ _ g (or_introl Hg)) Hin)
      as [H1 | H1]; [| right; exact H1].
    apply in_app_or in H1. destruct H1 as [H1 | [H1 | []]]; [left; exact H1 |].
    right. subst f. simpl. split; [reflexivity|]. split; [reflexivity|]. split.
    + exists file. split; [left; reflexivity|].
      unfold describes; simpl.
      split; [exact Edir|]. split; [reflexivity|]. split; [reflexivity|].
      split; [reflexivity|]. split; [apply isAudioExtension_format; exact Eext|].
      exact Etype.
    + intros g Hg Hu Heq.
      assert (Hex : existsb (fun d => Sound.eqb (soundType d) type && isUserSound d) acc = true).
      { apply existsb_exists. exists g. split; [exact Hg|].
        rewrite Hu, Heq, Sound_eqb_refl. reflexivity. }
      congruence.
Qed.

(** Every listed file comes from one of the two folders, and a file from
    the Defaults folder has the type of no listed user file. *)
Lemma scanSoundFiles_origin (fs : SoundsFolders) (f : DetectedSoundFile) :
  In f (scanSoundFiles join extensionPath fs) ->
  userFile join extensionPath fs f
  \/ (defaultFile join extensionPath fs f
      /\ forall g, In g (scanSoundFiles join extensionPath fs) ->
                   isUserSound g = true -> soundType g <> soundType f).
Proof.
  unfold scanSoundFiles, userFile, defaultFile.
  destruct (ensureFolders fs) as [[]|]; [| intros []].
  destruct (userListing fs) as [files|] eqn:Eu; [| intros []].
  destruct (scanUserFiles join extensionPath files []) as [detected ok] eqn:Escan.
  assert (Huser : forall g, In g detected ->
            isUserSound g = true /\ isDefaultSound g = false
            /\ exists files0 e, Normal files = Normal files0 /\ In e files0
                 /\ describes join (soundsPath join extensionPath) e g).
  { intros g Hg.
    destruct (scanUserFiles_origin files [] g) as [[] | (Hu & Hd & e & He & Hdesc)].
    - rewrite Escan. exact Hg.
    - split; [exact Hu|]. split; [exact Hd|].
      exists files, e. split; [reflexivity|]. split; assumption. }
  destruct ok.
  - destruct (defaultsListing fs) as [defaults|] eqn:Ed.
    + intros Hin.
      destruct (scanDefaultFiles_origin defaults detected f Hin)
        as [H1 | (Hu & Hd & (e & He & Hdesc) & Hno)].
      * left. apply Huser. exact H1.
      * right. split.
        -- split; [exact Hu|]. split; [exact Hd|].
           exists defaults, e. split; [reflexivity|]. split; assumption.
        -- intros g Hg Hgu.
           destruct (scanDefaultFiles_origin defaults detected g Hg)
             as [H1 | (Hu' & _)]; [| congruence].
           apply Hno; assumption.
    + intros Hin. left. apply Huser. exact Hin.
  - intros Hin. left. apply Huser. exact Hin.
Qed.

Lemma scanUserFiles_app (before rest : list DirEntry) :
  Forall (fun x => isDirectory x <> Throw) before ->
  forall acc,
    scanUserFiles join extensionPath (before ++ rest) acc
    = scanUserFiles join extensionPath rest
        (fst (scanUserFiles join extensionPath before acc)).
Proof.
  induction before as [| x before IH]; intros Hall acc; simpl.
  - reflexivity.
  - pose proof (Forall_inv Hall) as Hx. cbv beta in Hx.
    pose proof (Forall_inv_tail Hall) as Hrest.
    destruct (isDirectory x) as [[|]|]; [| | congruence]; auto.
    destruct (isAudioExtension _); auto.
    destruct (guessSoundType _); auto.
Qed.

End DetectorFacts.

Lemma find_some_in {A : Type} (p : A -> bool) (l : list A) (x : A) :
  find p l = Some x -> In x l /\ p x = true.
Proof. apply find_some. Qed.

Lemma hd_error_in {A : Type} (l : list A) (x : A) :
  hd_error l = Some x -> In x l.
Proof. destruct l; simpl; [discriminate | intros H; injection H as ->; left; reflexivity]. Qed.

(** What [findBestMatch] returns, case by case. *)
Lemma findBestMatch_cases (l : list DetectedSoundFile) (t : Sound.id) :
  let ofType := filter (fun f => Sound.eqb (soundType f) t) l in
  match findBestMatch l t with
  | Some f =>
      In f ofType
      /\ (exactlyNamed t f = true
          \/ ((forall g, In g ofType -> exactlyNamed t g = false)
              /\ (String.eqb (fileFormat f) "wav" = true
                  \/ ((forall g, In g ofType -> String.eqb (fileFormat g) "wav" = false)
                      /\ (String.eqb (fileFormat f) "mp3" = true
                          \/ ((forall g, In g ofType -> String.eqb (fileFormat g) "mp3" = false)
                              /\ hd_error ofType = Some f))))))
  | None => ofType = []
  end.
Proof.
  intros ofType.
  change (findBestMatch l t)
    with (match find (fun f => Sound.eqb (soundType f) t && exactlyNamed t f) l with
          | Some f => Some f
          | None =>
              if (0 <? List.length ofType)%nat then
                orElse (find (fun f => String.eqb (fileFormat f) "wav") ofType)
                  (orElse (find (fun f => String.eqb (fileFormat f) "mp3") ofType)
                          (hd_error ofType))
              else None
          end).
  destruct (find (fun f => Sound.eqb (soundType f) t && exactlyNamed t f) l)
    as [f|] eqn:Eexact.
  - apply find_some in Eexact. destruct Eexact as [Hin Hp].
    apply andb_true_iff in Hp. destruct Hp as [Ht Hx].
    split; [| left; exact Hx].
    apply filter_In. split; assumption.
  - assert (Hnone : forall g, In g ofType -> exactlyNamed t g = false).
    { intros g Hg. apply filter_In in Hg. destruct Hg as [Hg Ht].
      pose proof (find_none _ _ Eexact g Hg) as Hn. cbv beta in Hn.
      rewrite Ht in Hn. exact Hn. }
    clearbody ofType.
    destruct ofType as [| f0 rest] eqn:Eof; [reflexivity|].
    change (0 <? List.length (f0 :: rest))%nat with true. cbv iota.
    rewrite <- Eof in *. clear Eof.
    destruct (find (fun f => String.eqb (fileFormat f) "wav") ofType) as [f|] eqn:Ewav.
    + apply find_some in Ewav. destruct Ewav as [Hin Hw].
      simpl. split; [exact Hin|]. right. split; [exact Hnone|]. left. exact Hw.
    + simpl.
      destruct (find (fun f => String.eqb (fileFormat f) "mp3") ofType) as [f|] eqn:Emp3.
      * apply find_some in Emp3. destruct Emp3 as [Hin Hm].
        simpl. split; [exact Hin|]. right. split; [exact Hnone|].
        right. split; [exact (find_none _ _ Ewav)|]. left. exact Hm.
      * simpl. destruct (hd_error ofType) as [f|] eqn:Ehd.
        -- split; [apply hd_error_in; exact Ehd|].
           right. split; [exact Hnone|]. right. split; [exact (find_none _ _ Ewav)|].
           right. split; [exact (find_none _ _ Emp3)|]. reflexivity.
        -- destruct ofType; [reflexivity | discriminate].
Qed.

(** X16.  Every file that [scanSoundFiles] lists is a non-directory entry
    of the sounds folder (then flagged as a user sound) or of its Defaults
    folder (then flagged as a default sound), carries that entry's name,
    the path joined from the folder and the name, one of the six audio
    formats, and the type that [guessSoundType] gives to the entry's name
    without its lower-cased extension. *)
Theorem scan_lists_entries_of_the_two_folders :
  forall (join : list string -> string) (extensionPath : string)
         (fs : SoundsFolders) (f : DetectedSoundFile),
    In f (scanSoundFiles join extensionPath fs) ->
    userFile join extensionPath fs f \/ defaultFile join extensionPath fs f.
Proof.
  intros join extensionPath fs f Hin.
  destruct (scanSoundFiles_origin join extensionPath fs f Hin) as [H | [H _]];
    [left | right]; exact H.
Qed.

Lemma scan_lists_entries_of_the_two_folders_witness :
  In userInsert (scanSoundFiles simpleJoin "/ext" sampleFolders)
  /\ (userFile simpleJoin "/ext" sampleFolders userInsert
      \/ defaultFile simpleJoin "/ext" sampleFolders userInsert).
Proof.
  split.
  - vm_compute. left. reflexivity.
  - apply (scan_lists_entries_of_the_two_folders simpleJoin "/ext" sampleFolders
             userInsert).
    vm_compute. left. reflexivity.
Defined.

(** X17.  A file of the Defaults folder is listed only for a sound type of
    which no file of the sounds folder is listed: a user file and a default
    file of one scan never have the same type. *)
Theorem user_sound_shadows_default :
  forall (join : list string -> string) (extensionPath : string)
         (fs : SoundsFolders) (f g : DetectedSoundFile),
    In f (scanSoundFiles join extensionPath fs) ->
    In g (scanSoundFiles join extensionPath fs) ->
    isDefaultSound f = true ->
    isUserSound g = true ->
    soundType g <> soundType f.
Proof.
  intros join extensionPath fs f g Hf Hg Hd Hu.
  destruct (scanSoundFiles_origin join extensionPath fs f Hf)
    as [(_ & Hnd & _) | [_ Hno]]; [congruence |].
  apply Hno; assumption.
Qed.

Lemma user_sound_shadows_default_witness :
  In defaultRemove (scanSoundFiles simpleJoin "/ext" sampleFolders)
  /\ In userInsert (scanSoundFiles simpleJoin "/ext" sampleFolders)
  /\ soundType userInsert <> soundType defaultRemove.
Proof.
  split; [| split].
  - vm_compute. right. left. reflexivity.
  - vm_compute. left. reflexivity.
  - apply (user_sound_shadows_default simpleJoin "/ext" sampleFolders
             defaultRemove userInsert).
    + vm_compute. right. left. reflexivity.
    + vm_compute. left. reflexivity.
    + reflexivity.
    + reflexivity.
Defined.

(** X18.  [findBestMatch] returns a file of the list whose type is the
    requested one, and returns nothing only when the list has no file of
    that type. *)
Theorem findBestMatch_returns_requested_type :
  forall (detectedFiles : list DetectedSoundFile) (type : Sound.id),
    match findBestMatch detectedFiles type with
    | Some f => In f detectedFiles /\ soundType f = type
    | None => forall f, In f detectedFiles -> soundType f <> type
    end.
Proof.
  intros l t. pose proof (findBestMatch_cases l t) as H. cbv zeta in H.
  destruct (findBestMatch l t) as [f|].
  - destruct H as [Hin _]. apply filter_In in Hin. destruct Hin as [Hin Ht].
    split; [exact Hin | apply Sound_eqb_eq; exact Ht].
  - intros f Hin Ht.
    assert (Hf : In f (filter (fun f => Sound.eqb (soundType f) t) l)).
    { apply filter_In. split; [exact Hin | apply Sound_eqb_eq; exact Ht]. }
    rewrite H in Hf. exact Hf.
Qed.

(** X19.  The order of preference of [findBestMatch] among the files of
    the requested type: a file named exactly like the sound wins; without
    one a wav file wins; without a wav file an mp3 file wins. *)
Theorem findBestMatch_preference :
  forall (detectedFiles : list DetectedSoundFile) (type : Sound.id)
         (f g : DetectedSoundFile),
    findBestMatch detectedFiles type = Some f ->
    In g detectedFiles ->
    soundType g = type ->
    (exactlyNamed type g = true -> exactlyNamed type f = true)
    /\ (exactlyNamed type f = false -> fileFormat g = "wav" ->
        fileFormat f = "wav")
    /\ (exactlyNamed type f = false -> fileFormat f <> "wav" ->
        fileFormat g = "mp3" -> fileFormat f = "mp3").
Proof.
  intros l t f g Hbest Hg Ht.
  pose proof (findBestMatch_cases l t) as H. cbv zeta in H.
  rewrite Hbest in H. destruct H as [_ H].
  assert (Hg' : In g (filter (fun f => Sound.eqb (soundType f) t) l)).
  { apply filter_In. split; [exact Hg | apply Sound_eqb_eq; exact Ht]. }
  split; [| split].
  - intros Hx. destruct H as [H | [Hnone _]]; [exact H |].
    rewrite (Hnone g Hg') in Hx. discriminate.
  - intros Hf Hw. destruct H as [H | [_ H]]; [congruence |].
    destruct H as [H | [Hnone _]].
    + apply String.eqb_eq. exact H.
    + specialize (Hnone g Hg'). rewrite Hw in Hnone. discriminate.
  - intros Hf Hnw Hm. destruct H as [H | [_ H]]; [congruence |].
    destruct H as [H | [_ H]].
    + apply String.eqb_eq in H. contradiction.
    + destruct H as [H | [Hnone _]].
      * apply String.eqb_eq. exact H.
      * specialize (Hnone g Hg'). rewrite Hm in Hnone. discriminate.
Qed.

Lemma findBestMatch_preference_witness :
  findBestMatch threeAdds Sound.add = Some myAddWav
  /\ (exactlyNamed Sound.add createdMp3 = true ->
      exactlyNamed Sound.add myAddWav = true)
  /\ (exactlyNamed Sound.add myAddWav = false ->
      fileFormat createdMp3 = "wav" -> fileFormat myAddWav = "wav")
  /\ (exactlyNamed Sound.add myAddWav = false ->
      fileFormat myAddWav <> "wav" ->
      fileFormat createdMp3 = "mp3" -> fileFormat myAddWav = "mp3").
Proof.
  split.
  - vm_compute. reflexivity.
  - apply (findBestMatch_preference threeAdds Sound.add myAddWav createdMp3).
    + vm_compute. reflexivity.
    + right. left. reflexivity.
    + reflexivity.
Defined.

(** X20.  A file of the sounds folder always wins over the Defaults
    folder: when the scan reaches a non-directory entry of the sounds
    folder with an audio extension and a name of type [type], the best
    match of the scan for [type] is a user sound, whatever the Defaults
    folder holds and whether or not its listing succeeds. *)
Theorem user_file_wins :
  forall (join : list string -> string) (extensionPath : string)
         (fs : SoundsFolders) (before after : list DirEntry) (e : DirEntry)
         (type : Sound.id),
    ensureFolders fs = Normal tt ->
    userListing fs = Normal (before ++ e :: after) ->
    Forall (fun x => isDirectory x <> Throw) before ->
    isDirectory e = Normal false ->
    isAudioExtension (toLowerCase (extname (entryName e))) = true ->
    guessSoundType (scannedBaseName (entryName e)) = Some type ->
    exists f,
      findBestMatch (scanSoundFiles join extensionPath fs) type = Some f
      /\ userFile join extensionPath fs f.
Proof.
  intros join extensionPath fs before after e t Hens Hlist Hbefore Hdir Hext Htype.
  set (entry := mkDetected (entryName e)
                  (join [soundsPath join extensionPath; entryName e])
                  (existsNow e) t
                  (substring1 (toLowerCase (extname (entryName e)))) true false).
  assert (Hlisted : In entry (scanSoundFiles join extensionPath fs)).
  { unfold scanSoundFiles. rewrite Hens, Hlist.
    assert (Huser : In entry
              (fst (scanUserFiles join extensionPath (before ++ e :: after) []))).
    { rewrite (scanUserFiles_app join extensionPath before (e :: after) Hbefore).
      simpl. rewrite Hdir, Hext.
      unfold scannedBaseName in Htype. rewrite Htype.
      apply scanUserFiles_keeps. apply in_or_app. right. left. reflexivity. }
    destruct (scanUserFiles join extensionPath (before ++ e :: after) [])
      as [detected ok]. simpl in Huser.
    destruct ok; [| exact Huser].
    destruct (defaultsListing fs); [| exact Huser].
    apply scanDefaultFiles_keeps. exact Huser. }
  pose proof (findBestMatch_cases (scanSoundFiles join extensionPath fs) t) as H.
  cbv zeta in H.
  destruct (findBestMatch (scanSoundFiles join extensionPath fs) t) as [f|].
  - exists f. split; [reflexivity|].
    destruct H as [Hin _]. apply filter_In in Hin. destruct Hin as [Hin Ht].
    apply Sound_eqb_eq in Ht.
    destruct (scanSoundFiles_origin join extensionPath fs f Hin) as [Hu | [_ Hno]].
    + exact Hu.
    + exfalso. apply (Hno entry Hlisted); [reflexivity |].
      rewrite Ht. reflexivity.
  - exfalso.
    assert (Hf : In entry (filter (fun f => Sound.eqb (soundType f) t)
                             (scanSoundFiles join extensionPath fs))).
    { apply filter_In. split; [exact Hlisted | apply Sound_eqb_refl]. }
    rewrite H in Hf. exact Hf.
Qed.

Lemma user_file_wins_witness :
  exists f,
    findBestMatch (scanSoundFiles simpleJoin "/ext" sampleFolders) Sound.add
    = Some f
    /\ userFile simpleJoin "/ext" sampleFolders f.
Proof.
  apply (user_file_wins simpleJoin "/ext" sampleFolders
           [mkDirEntry "Defaults" (Normal true) true]
           [mkDirEntry "notes.txt" (Normal false) true]
           (mkDirEntry "My-Insert.MP3" (Normal false) true) Sound.add).
  - reflexivity.
  - reflexivity.
  - constructor; [discriminate | constructor].
  - reflexivity.
  - vm_compute. reflexivity.
  - vm_compute. reflexivity.
Defined.

(** ** Sounds without a resolved file *)

Lemma silent_refl s w : silent s w w.
Proof. split; intros; reflexivity. Qed.

Lemma silent_trans s w1 w2 w3 :
  silent s w1 w2 -> silent s w2 w3 -> silent s w1 w3.
Proof.
  intros [A B] [C D]. split.
  - intros r. rewrite C. apply A.
  - intros H. rewrite D by (rewrite A; exact H). apply B, H.
Qed.

Lemma silent_same s w w' :
  (forall r, rolePath r (soundPlayer w') = rolePath r (soundPlayer w)) ->
  audioLog w' = audioLog w ->
  silent s w w'.
Proof. intros A B. split; [exact A | intros _; rewrite B; reflexivity]. Qed.

Ltac same_sounds := apply silent_same; [intros []; reflexivity | reflexivity].

Lemma playAudio_silent s s' v l w :
  isEmpty (rolePath s' (soundPlayer w)) = false ->
  silent s w (playAudio s' v l w).
Proof.
  intros Hpath. unfold playAudio.
  destruct (audioWebviewPanel (soundPlayer w)); [| apply silent_refl].
  split; [intros []; reflexivity |].
  intros Hs. simpl. unfold playsIn. rewrite filter_app. simpl.
  unfold isPlayOf at 2. simpl.
  destruct (Sound.eqb s' s) eqn:E.
  - apply Sound_eqb_eq in E. subst s'. congruence.
  - apply app_nil_r.
Qed.

Lemma stopAudio_silent s s' w : silent s w (stopAudio s' w).
Proof.
  unfold stopAudio.
  destruct (audioWebviewPanel (soundPlayer w)); [| apply silent_refl].
  split; [intros []; reflexivity |].
  intros _. simpl. unfold playsIn. rewrite filter_app. simpl.
  apply app_nil_r.
Qed.

Lemma playAdd_silent s c w : silent s w (playAdd c w).
Proof.
  unfold playAdd.
  destruct (isEmpty (addSoundPath (soundPlayer w))) eqn:E;
    [apply silent_refl |].
  destruct (negb _); [apply silent_refl |].
  apply playAudio_silent. exact E.
Qed.

Lemma playRemove_silent s c w : silent s w (playRemove c w).
Proof.
  unfold playRemove.
  destruct (isEmpty (removeSoundPath (soundPlayer w))) eqn:E;
    [apply silent_refl |].
  destruct (negb _); [apply silent_refl |].
  apply playAudio_silent. exact E.
Qed.

Lemma playDiffOpen_silent s c w : silent s w (playDiffOpen c w).
Proof.
  unfold playDiffOpen.
  destruct (isEmpty (diffOpenSoundPath (soundPlayer w))) eqn:E;
    [apply silent_refl |].
  destruct (negb _); [apply silent_refl |].
  apply playAudio_silent. exact E.
Qed.

Lemma playDiffActive_silent s c w : silent s w (playDiffActive c w).
Proof.
  unfold playDiffActive.
  destruct (isEmpty (diffActiveSoundPath (soundPlayer w))) eqn:E;
    [apply silent_refl |].
  destruct (negb _); [apply silent_refl |].
  apply playAudio_silent. exact E.
Qed.

Lemma playDiffClose_silent s c w : silent s w (playDiffClose c w).
Proof.
  unfold playDiffClose.
  destruct (isEmpty (diffCloseSoundPath (soundPlayer w))) eqn:E;
    [apply silent_refl |].
  destruct (negb _); [apply silent_refl |].
  eapply silent_trans; [apply stopAudio_silent |].
  apply playAudio_silent.
  destruct (stopAudio_silent s Sound.diffactive w) as [Hp _].
  rewrite (Hp Sound.diffclose). exact E.
Qed.

Lemma onSoundCompleted_silent s s' cb w :
  silent s w (onSoundCompleted s' cb w).
Proof. same_sounds. Qed.

Lemma tabClosed_silent s c w t : silent s w (tabClosed c w t).
Proof.
  unfold tabClosed.
  destruct (isDiffInput t); [| apply silent_refl].
  destruct (isDuringConfigChange w); [apply silent_refl |].
  destruct (_ && _).
  - eapply silent_trans; [| apply playDiffClose_silent]. same_sounds.
  - same_sounds.
Qed.

Lemma tabOpened_silent s c w t : silent s w (tabOpened c w t).
Proof.
  unfold tabOpened.
  destruct (isDiffInput t); [| apply silent_refl].
  destruct (isDuringConfigChange w); [apply silent_refl |].
  destruct (se_enabled (diffOpenSound c)).
  - eapply silent_trans; [| apply playDiffOpen_silent]. same_sounds.
  - destruct (se_enabled (diffActiveSound c)).
    + eapply silent_trans; [| apply playDiffActive_silent]. same_sounds.
    + same_sounds.
Qed.

Lemma onDidChangeTabs_silent s e w : silent s w (onDidChangeTabs e w).
Proof.
  unfold onDidChangeTabs.
  destruct (isDisabled w); [apply silent_refl |].
  destruct (negb _); [apply silent_refl |].
  set (c := getVSCodeConfig _).
  eapply silent_trans.
  - apply (fold_left_preorder (silent s) (tabClosed c));
      [apply silent_refl | apply silent_trans | apply tabClosed_silent].
  - apply (fold_left_preorder (silent s) (tabOpened c));
      [apply silent_refl | apply silent_trans | apply tabOpened_silent].
Qed.

Lemma stopAll_silent s w : silent s w (stopAll w).
Proof.
  unfold stopAll.
  repeat (eapply silent_trans; [| apply stopAudio_silent]).
  apply silent_refl.
Qed.

Lemma commandEnable_silent s w : silent s w (commandEnable w).
Proof.
  unfold commandEnable.
  eapply silent_trans; [| apply stopAll_silent]. same_sounds.
Qed.

Lemma commandDisable_silent s w : silent s w (commandDisable w).
Proof.
  unfold commandDisable.
  eapply silent_trans; [| same_sounds].
  eapply silent_trans; [| apply stopAll_silent]. same_sounds.
Qed.

Lemma runCompletionCallback_silent s w cb :
  silent s w (runCompletionCallback cb w).
Proof.
  destruct cb as [c]. simpl.
  destruct (_ && _); [apply playDiffActive_silent | apply silent_refl].
Qed.

Lemma onAudioEnded_silent s s' w : silent s w (onAudioEnded s' w).
Proof.
  unfold onAudioEnded.
  destruct (map_get s' _) as [cbs|]; [| apply silent_refl].
  eapply silent_trans; [| same_sounds].
  apply (fold_left_preorder (silent s)
           (fun acc cb => runCompletionCallback cb acc));
    [apply silent_refl | apply silent_trans |].
  intros; apply runCompletionCallback_silent.
Qed.

Lemma runTimerCallback_silent s cb w : silent s w (runTimerCallback cb w).
Proof.
  destruct cb as [a c]. simpl.
  destruct (isDuringConfigChange w); [apply silent_refl |].
  destruct a.
  - destruct (se_enabled _); [apply playAdd_silent | apply silent_refl].
  - destruct (se_enabled _); [apply playRemove_silent | apply silent_refl].
Qed.

Lemma fireTimer_silent s w tm : silent s w (fireTimer w tm).
Proof.
  unfold fireTimer.
  eapply silent_trans; [| apply runTimerCallback_silent]. same_sounds.
Qed.

Lemma debouncedPlay_silent s c a w : silent s w (debouncedPlay c a w).
Proof. unfold debouncedPlay. destruct (timeout w); same_sounds. Qed.

Lemma onDidChangeTextDocument_silent s e w :
  silent s w (onDidChangeTextDocument e w).
Proof.
  unfold onDidChangeTextDocument.
  destruct (isDisabled w); [apply silent_refl |].
  destruct (_ <? _); [apply silent_refl |].
  destruct (shouldPlaySound _ _ _ _ _) as [[|]|]; try apply silent_refl.
  destruct (negb _); [apply silent_refl |].
  unfold scheduleChanges.
  match goal with
  | |- silent _ _ (fold_left ?f _ _) => apply (fold_left_preorder (silent s) f)
  end; [apply silent_refl | apply silent_trans |].
  intros w' ch. destruct (classify ch);
    [apply debouncedPlay_silent | apply silent_refl].
Qed.

Lemma advance_silent s t w : silent s w (advance t w).
Proof.
  unfold advance.
  set (due := firingOrder (filter (isDue t) (timers w))).
  set (w1 := set_timers (filter (fun tm => negb (isDue t tm)) (timers w)) w).
  apply silent_trans with (w2 := fold_left fireTimer due w1); [| same_sounds].
  apply silent_trans with (w2 := w1); [same_sounds |].
  apply (fold_left_preorder (silent s) fireTimer);
    [apply silent_refl | apply silent_trans |].
  intros w' tm. apply fireTimer_silent.
Qed.

Lemma dispatch_silent s ev w : silent s w (dispatch ev w).
Proof.
  destruct ev as [e|groups e| | |s']; simpl.
  - apply onDidChangeTextDocument_silent.
  - eapply silent_trans; [| apply onDidChangeTabs_silent]. same_sounds.
  - apply commandEnable_silent.
  - apply commandDisable_silent.
  - apply onAudioEnded_silent.
Qed.

Lemma run_silent s evs : forall w, silent s w (run evs w).
Proof.
  unfold run.
  apply (fold_left_preorder (silent s)
           (fun acc te => dispatch (snd te) (advance (fst te) acc)));
    [apply silent_refl | apply silent_trans |].
  intros w te.
  eapply silent_trans; [apply advance_silent | apply dispatch_silent].
Qed.

Lemma unresolved_silent s evs T w :
  isEmpty (rolePath s (soundPlayer w)) = true ->
  playsIn s (audioLog (advance T (run evs w))) = playsIn s (audioLog w).
Proof.
  intros H.
  destruct (silent_trans s _ _ _ (run_silent s evs w)
              (advance_silent s T (run evs w))) as [_ Hs].
  apply Hs, H.
Qed.

(** X21.  A sound whose file path is not resolved is never played: no
    sequence of events and timer firings posts a play of it; and no
    handler changes the resolved paths. *)
Theorem unresolved_sound_never_plays :
  forall (s : Sound.id) (evs : list (Z * Event)) (T : Z) (w : World),
    isEmpty (rolePath s (soundPlayer w)) = true ->
    playsIn s (audioLog (advance T (run evs w))) = playsIn s (audioLog w)
    /\ forall r, rolePath r (soundPlayer (advance T (run evs w)))
                 = rolePath r (soundPlayer w).
Proof.
  intros s evs T w H.
  destruct (silent_trans s _ _ _ (run_silent s evs w)
              (advance_silent s T (run evs w))) as [Hp Hs].
  split; [apply Hs, H | exact Hp].
Qed.

Lemma unresolved_sound_never_plays_witness :
  playsIn Sound.diffclose
    (audioLog
       (advance 20000
          (run busyRun
             (set_soundPlayer
                (mkPlayer true "a.wav" "r.wav" "o.wav" "l.wav" EmptyString [])
                editing))))
  = [].
Proof.
  apply (proj1 (unresolved_sound_never_plays Sound.diffclose busyRun 20000
                  (set_soundPlayer
                     (mkPlayer true "a.wav" "r.wav" "o.wav" "l.wav"
                        EmptyString [])
                     editing)
                  eq_refl)).
Defined.

(** ** Reloading from the configuration cached at activation *)

Lemma reload_log join extensionPath currentConfig fs files w :
  audioLog (snd (commandReloadSounds join extensionPath currentConfig fs files w))
  = audioLog w.
Proof. reflexivity. Qed.

Lemma reload_path join extensionPath currentConfig fs files w s :
  rolePath s
    (soundPlayer
       (snd (commandReloadSounds join extensionPath currentConfig fs files w)))
  = if se_enabled
         (roleEntry s (getConfig currentConfig (configuration (host w))))
    then getSoundFilePath join extensionPath
           (updateConfigWithDetectedFiles join extensionPath fs files s)
    else EmptyString.
Proof. destruct s; reflexivity. Qed.

Lemma findBestMatch_none (l : list DetectedSoundFile) (t : Sound.id) :
  (forall f, In f l -> soundType f <> t) -> findBestMatch l t = None.
Proof.
  intros Hno. pose proof (findBestMatch_cases l t) as H. cbv zeta in H.
  destruct (findBestMatch l t) as [f|]; [| reflexivity].
  destruct H as [Hin _]. apply filter_In in Hin. destruct Hin as [Hin Ht].
  apply Sound_eqb_eq in Ht. destruct (Hno f Hin Ht).
Qed.

(** X22.  A reload through [getConfig] resolves the paths from the
    configuration cached at activation, not from the settings: a role that
    was off in the cached configuration has an empty path after the
    reload, and from then on no event the host delivers (document change,
    tab change, end of a sound, enable or disable command), no timer and no
    further run of the reload command resolves its path or plays it,
    whatever the settings say by then and whatever the folders hold.  (The
    reload made when the settings view becomes visible reads the settings
    afresh; it is not among these steps.) *)
Theorem role_off_at_activation_stays_silent :
  forall (join : list string -> string) (extensionPath : string)
         (cached : DiffSoundsConfig) (fs : SoundsFolders)
         (files : ConfigFiles) (w : World) (s : Sound.id)
         (steps : list Step) (T : Z),
    se_enabled (roleEntry s cached) = false ->
    rolePath s
      (soundPlayer
         (snd (runSteps join extensionPath (Some cached) steps
                 (commandReloadSounds join extensionPath (Some cached)
                    fs files w))))
    = EmptyString
    /\ playsIn s
         (audioLog
            (advance T
               (snd (runSteps join extensionPath (Some cached) steps
                       (commandReloadSounds join extensionPath (Some cached)
                          fs files w)))))
       = playsIn s (audioLog w).
Proof.
  intros join extensionPath cached fs files w s steps T Hoff.
  assert (Hreload : forall fs0 files0 w0,
            rolePath s
              (soundPlayer
                 (snd (commandReloadSounds join extensionPath (Some cached)
                         fs0 files0 w0)))
            = EmptyString).
  { intros fs0 files0 w0. rewrite reload_path. simpl. rewrite Hoff.
    reflexivity. }
  assert (Hinv : forall steps0 acc,
            rolePath s (soundPlayer (snd acc)) = EmptyString ->
            playsIn s (audioLog (snd acc)) = playsIn s (audioLog w) ->
            rolePath s
              (soundPlayer
                 (snd (runSteps join extensionPath (Some cached) steps0 acc)))
            = EmptyString
            /\ playsIn s
                 (audioLog
                    (snd (runSteps join extensionPath (Some cached) steps0
                            acc)))
               = playsIn s (audioLog w)).
  { unfold runSteps.
    induction steps0 as [| st steps0 IH]; intros acc Hpath Hlog; simpl.
    - split; assumption.
    - assert (Hempty : isEmpty (rolePath s (soundPlayer (snd acc))) = true)
        by (rewrite Hpath; reflexivity).
      apply IH; destruct st as [t ev | t fs0]; cbn [step fst snd].
      + destruct (silent_trans s _ _ _ (advance_silent s t (snd acc))
                    (dispatch_silent s ev (advance t (snd acc)))) as [Hp _].
        rewrite Hp. exact Hpath.
      + apply Hreload.
      + destruct (silent_trans s _ _ _ (advance_silent s t (snd acc))
                    (dispatch_silent s ev (advance t (snd acc)))) as [_ Hs].
        rewrite (Hs Hempty). exact Hlog.
      + change (playsIn s (audioLog (advance t (snd acc)))
                = playsIn s (audioLog w)).
        destruct (advance_silent s t (snd acc)) as [_ Hs].
        rewrite (Hs Hempty). exact Hlog. }
  destruct (Hinv steps
              (commandReloadSounds join extensionPath (Some cached) fs files w)
              (Hreload fs files w)
              (f_equal (playsIn s) (reload_log join extensionPath (Some cached)
                                      fs files w)))
    as [Hpath Hlog].
  split; [exact Hpath |].
  destruct (advance_silent s T
              (snd (runSteps join extensionPath (Some cached) steps
                      (commandReloadSounds join extensionPath (Some cached)
                         fs files w)))) as [_ Hs].
  rewrite Hs by (rewrite Hpath; reflexivity). exact Hlog.
Qed.

Lemma role_off_at_activation_stays_silent_witness :
  se_enabled (addSound (getVSCodeConfig (configuration (host editing)))) = true
  /\ playsIn Sound.add
       (audioLog
          (advance 20000
             (snd (runSteps simpleJoin "/ext" (Some addOffAtActivation)
                     busySteps
                     (commandReloadSounds simpleJoin "/ext"
                        (Some addOffAtActivation) sampleFolders noFiles
                        editing)))))
     = [].
Proof.
  split; [reflexivity |].
  apply (proj2 (role_off_at_activation_stays_silent simpleJoin "/ext"
                  addOffAtActivation sampleFolders noFiles editing Sound.add
                  busySteps 20000 eq_refl)).
Defined.

(** X23.  When the master flag was off in the configuration cached at
    activation, a reload through [getConfig] leaves the player without
    audio panel, and from then on no event the host delivers (document
    change, tab change, end of a sound, enable or disable command), no
    timer and no further run of the reload command posts any message or
    creates the panel, whatever the settings say by then.  (The reload
    made when the settings view becomes visible reads the settings afresh;
    it is not among these steps.) *)
Theorem master_off_at_activation_mutes_all :
  forall (join : list string -> string) (extensionPath : string)
         (cached : DiffSoundsConfig) (fs : SoundsFolders)
         (files : ConfigFiles) (w : World)
         (steps : list Step) (T : Z),
    enabled cached = false ->
    audioWebviewPanel
      (soundPlayer
         (snd (runSteps join extensionPath (Some cached) steps
                 (commandReloadSounds join extensionPath (Some cached)
                    fs files w))))
    = false
    /\ audioLog
         (advance T
            (snd (runSteps join extensionPath (Some cached) steps
                    (commandReloadSounds join extensionPath (Some cached)
                       fs files w))))
       = audioLog w.
Proof.
  intros join extensionPath cached fs files w steps T Hoff.
  assert (Hreload : forall fs0 files0 w0,
            audioWebviewPanel
              (soundPlayer
                 (snd (commandReloadSounds join extensionPath (Some cached)
                         fs0 files0 w0)))
            = false).
  { intros fs0 files0 w0.
    unfold commandReloadSounds, preloadSounds, getConfig. simpl.
    rewrite Hoff. destruct (audioWebviewPanel (soundPlayer w0)); reflexivity. }
  assert (Hinv : forall steps0 acc,
            audioWebviewPanel (soundPlayer (snd acc)) = false ->
            audioLog (snd acc) = audioLog w ->
            audioWebviewPanel
              (soundPlayer
                 (snd (runSteps join extensionPath (Some cached) steps0 acc)))
            = false
            /\ audioLog
                 (snd (runSteps join extensionPath (Some cached) steps0 acc))
               = audioLog w).
  { unfold runSteps.
    induction steps0 as [| st steps0 IH]; intros acc Hpanel Hlog; simpl.
    - split; assumption.
    - apply IH; destruct st as [t ev | t fs0]; cbn [step fst snd].
      + destruct (mute_trans _ _ _ (advance_mute t (snd acc))
                    (dispatch_mute ev (advance t (snd acc)))) as [Hp _].
        rewrite Hp. exact Hpanel.
      + apply Hreload.
      + destruct (mute_trans _ _ _ (advance_mute t (snd acc))
                    (dispatch_mute ev (advance t (snd acc)))) as [_ Hs].
        rewrite (Hs Hpanel). exact Hlog.
      + change (audioLog (advance t (snd acc)) = audioLog w).
        destruct (advance_mute t (snd acc)) as [_ Hs].
        rewrite (Hs Hpanel). exact Hlog. }
  destruct (Hinv steps
              (commandReloadSounds join extensionPath (Some cached) fs files w)
              (Hreload fs files w)
              (reload_log join extensionPath (Some cached) fs files w))
    as [Hpanel Hlog].
  split; [exact Hpanel |].
  destruct (advance_mute T
              (snd (runSteps join extensionPath (Some cached) steps
                      (commandReloadSounds join extensionPath (Some cached)
                         fs files w)))) as [_ Hs].
  rewrite (Hs Hpanel). exact Hlog.
Qed.

Lemma master_off_at_activation_mutes_all_witness :
  enabled (getVSCodeConfig (configuration (host editing))) = true
  /\ audioLog
       (advance 20000
          (snd (runSteps simpleJoin "/ext"
                  (Some (getVSCodeConfig [("enabled", VBool false)]))
                  busySteps
                  (commandReloadSounds simpleJoin "/ext"
                     (Some (getVSCodeConfig [("enabled", VBool false)]))
                     sampleFolders noFiles editing))))
     = [].
Proof.
  split; [reflexivity |].
  apply (proj2 (master_off_at_activation_mutes_all simpleJoin "/ext"
                  (getVSCodeConfig [("enabled", VBool false)]) sampleFolders
                  noFiles editing busySteps 20000 eq_refl)).
Defined.

(** X24.  A role for which the scan lists no file, and for which the
    configuration object holds no file name from an earlier scan, has an
    empty path after the reload and is not played by any later event or
    timer. *)
Theorem undetected_sound_is_silent :
  forall (join : list string -> string) (extensionPath : string)
         (currentConfig : option DiffSoundsConfig) (fs : SoundsFolders)
         (files : ConfigFiles) (w : World) (s : Sound.id)
         (evs : list (Z * Event)) (T : Z),
    (forall f, In f (scanSoundFiles join extensionPath fs) ->
               soundType f <> s) ->
    se_filename (files s) = None ->
    rolePath s
      (soundPlayer
         (snd (commandReloadSounds join extensionPath currentConfig fs files w)))
    = EmptyString
    /\ playsIn s
         (audioLog
            (advance T
               (run evs
                  (snd (commandReloadSounds join extensionPath currentConfig
                          fs files w)))))
       = playsIn s (audioLog w).
Proof.
  intros join extensionPath currentConfig fs files w s evs T Hno Hfile.
  assert (Hpath : rolePath s
            (soundPlayer
               (snd (commandReloadSounds join extensionPath currentConfig
                       fs files w)))
          = EmptyString).
  { rewrite reload_path.
    destruct (se_enabled _); [| reflexivity].
    unfold updateConfigWithDetectedFiles, getSoundFilePath.
    rewrite (findBestMatch_none _ s Hno), Hfile. reflexivity. }
  split; [exact Hpath |].
  rewrite unresolved_silent by (rewrite Hpath; reflexivity).
  reflexivity.
Qed.

Lemma undetected_sound_is_silent_witness :
  playsIn Sound.add
    (audioLog
       (advance 20000
          (run busyRun
             (snd (commandReloadSounds simpleJoin "/ext" None
                     foldersWithoutAdd noFiles editing)))))
  = []
  /\ playsIn Sound.diffopen
       (audioLog
          (advance 20000
             (run busyRun
                (snd (commandReloadSounds simpleJoin "/ext" None
                        foldersWithoutAdd noFiles editing)))))
     = [(10050, playAudioMsg Sound.diffopen (10000 # 10000) false)].
Proof.
  split.
  - refine (proj2 (undetected_sound_is_silent simpleJoin "/ext" None
                     foldersWithoutAdd noFiles editing Sound.add busyRun 20000
                     _ eq_refl)).
    intros f Hin. vm_compute in Hin.
    destruct Hin as [<- | [<- | []]]; simpl; discriminate.
  - vm_compute. reflexivity.
Defined.
